(** * TaskFlow: the Zustand store, the [useTasks] hook and the helper utilities

    A shallow embedding of
    - the data model ([types/index.ts]),
    - the store and its actions ([store/useStore.ts]),
    - the [moveTask] wrapper of the [useTasks] hook,
    - [truncate] of the helper utilities,
    - [getDaysUntil] and [getDueDateStatus] ([utils/dateHelpers.ts]),
    followed by the properties of the specification that concern them.

    Conventions.  A JavaScript string is a Rocq [string], one [ascii] per
    code unit.  The integers the code handles (millisecond time values, day
    counts, lengths) are [Z]; a [number] that may be [NaN] is a [jsnum].
    The wall clock and [Math.random] are inputs of the program: the
    [World] carries the readings they will return, and every read consumes
    one. *)

From Stdlib Require Import ZArith List String Ascii Bool Lia DecimalString.
From Stdlib Require Import DecimalPos DecimalZ Permutation.
Import ListNotations.
Local Open Scope string_scope.
Local Open Scope Z_scope.

(* ================================================================== *)
(** ** The JavaScript runtime the sources rely on *)
(* ================================================================== *)

Module JS.

(** [String(n)] for an integer [n] (decimal notation; JavaScript switches
    to exponent notation only from 10^21 on, out of reach of the time
    values and day counts rendered here). *)
Definition toString (n : Z) : string :=
  NilZero.string_of_int (Z.to_int n).

(** A [number] that is an integer or [NaN]. *)
Inductive jsnum : Type :=
| NaN : jsnum
| Num : Z -> jsnum.

(** [x < k], [x === k], [x <= k]: every comparison with [NaN] is false. *)
Definition lt (x : jsnum) (k : Z) : bool :=
  match x with NaN => false | Num z => z <? k end.

Definition strict_eq (x : jsnum) (k : Z) : bool :=
  match x with NaN => false | Num z => z =? k end.

Definition le (x : jsnum) (k : Z) : bool :=
  match x with NaN => false | Num z => z <=? k end.

Definition Math_abs (x : jsnum) : jsnum :=
  match x with NaN => NaN | Num z => Num (Z.abs z) end.

(** The text a template literal inserts for [${x}]. *)
Definition interpolate (x : jsnum) : string :=
  match x with NaN => "NaN" | Num z => toString z end.

(** [s.length]. *)
Definition length (s : string) : Z := Z.of_nat (String.length s).

(** An index argument is clamped into [0 .. s.length]. *)
Definition clamp (s : string) (i : Z) : Z :=
  Z.min (Z.max i 0) (length s).

(** [s.substring(from, to)]: both indices clamped, swapped when out of
    order. *)
Definition substring (s : string) (from to : Z) : string :=
  let a := clamp s from in
  let b := clamp s to in
  let lo := Z.min a b in
  let hi := Z.max a b in
  String.substring (Z.to_nat lo) (Z.to_nat (hi - lo)) s.

(** [s.substr(from, len)] for a non-negative [from]. *)
Definition substr (s : string) (from len : nat) : string :=
  String.substring from len s.

(** [a < b], [a <= b] on strings: code unit by code unit. *)
Definition str_le (a b : string) : bool := String.leb a b.

(** *** [Date.prototype.toISOString] *)

Definition msPerDay : Z := 86400000.

(** Decimal digits of a non-negative [n], left-padded with zeros to
    [width] digits. *)
Fixpoint pad (width : nat) (n : Z) : string :=
  match width with
  | O => ""
  | S w =>
      pad w (n / 10) ++
      String (ascii_of_nat (48 + Z.to_nat (n mod 10))) ""
  end.

(** Proleptic Gregorian year, month and day of the day numbered [days]
    from 1970-01-01. *)
Definition civil (days : Z) : Z * Z * Z :=
  let z := days + 719468 in
  let era := z / 146097 in
  let doe := z - era * 146097 in
  let yoe := (doe - doe / 1460 + doe / 36524 - doe / 146096) / 365 in
  let doy := doe - (365 * yoe + yoe / 4 - yoe / 100) in
  let mp := (5 * doy + 2) / 153 in
  let d := doy - (153 * mp + 2) / 5 + 1 in
  let m := if mp <? 10 then mp + 3 else mp - 9 in
  let y := yoe + era * 400 + (if m <=? 2 then 1 else 0) in
  (y, m, d).

Definition year_string (y : Z) : string :=
  if (0 <=? y) && (y <=? 9999) then pad 4 y
  else (if y <? 0 then "-" else "+") ++ pad 6 (Z.abs y).

(** [new Date(ms).toISOString()]. *)
Definition toISOString (ms : Z) : string :=
  let '(y, m, d) := civil (ms / msPerDay) in
  let t := ms mod msPerDay in
  year_string y ++ "-" ++ pad 2 m ++ "-" ++ pad 2 d ++ "T" ++
  pad 2 (t / 3600000) ++ ":" ++ pad 2 (t / 60000 mod 60) ++ ":" ++
  pad 2 (t / 1000 mod 60) ++ "." ++ pad 3 (t mod 1000) ++ "Z".

End JS.

Arguments JS.toISOString : simpl never.
Arguments JS.toString : simpl never.
Arguments JS.substr : simpl never.
Arguments JS.substring : simpl never.

(* ================================================================== *)
(** ** The calendar behind [toISOString] *)
(* ================================================================== *)

Module Calendar.

(** The time values whose ISO string has a year of four digits: from
    0000-01-01T00:00:00.000Z to 9999-12-31T23:59:59.999Z. *)
Definition four_digit_year (ms : Z) : Prop :=
  -62167219200000 <= ms < 253402300800000.

(** The first and the last day, counted from 1970-01-01, of the years 0000
    to 9999. *)
Definition first_day : Z := -719528.
Definition last_day : Z := 2932896.

(** The day of the 400-year era at which the year [y] of the era starts
    (eras and years start on the first of March). *)
Definition year_start (y : Z) : Z := 365 * y + y / 4 - y / 100.

(** The year of the era that the day [doe] of the era falls in, as
    [JS.civil] computes it. *)
Definition year_of_era (doe : Z) : Z :=
  (doe - doe / 1460 + doe / 36524 - doe / 146096) / 365.

(** Month and day of the month, as the number [100 * month + day], of the
    day [doy] of a year that starts in March, and whether that day falls in
    January or February, which belong to the next calendar year. *)
Definition month_day (doy : Z) : Z :=
  let mp := (5 * doy + 2) / 153 in
  (if mp <? 10 then mp + 3 else mp - 9) * 100
  + (doy - (153 * mp + 2) / 5 + 1).

Definition next_year (doy : Z) : Z :=
  if (if (5 * doy + 2) / 153 <? 10
      then (5 * doy + 2) / 153 + 3
      else (5 * doy + 2) / 153 - 9) <=? 2
  then 1 else 0.

(** The date of a day as one number, [10000 * year + 100 * month + day]. *)
Definition date_key (days : Z) : Z :=
  let '(y, m, d) := JS.civil days in (y * 100 + m) * 100 + d.

(** The ISO string of a date and time given by its fields, the year having
    four digits. *)
Definition stamp (y m d hh mi ss mmm : Z) : string :=
  JS.pad 4 y ++ "-" ++ JS.pad 2 m ++ "-" ++ JS.pad 2 d ++ "T" ++
  JS.pad 2 hh ++ ":" ++ JS.pad 2 mi ++ ":" ++ JS.pad 2 ss ++ "." ++
  JS.pad 3 mmm ++ "Z".

End Calendar.


(* ================================================================== *)
(** ** The data model ([types/index.ts]) *)
(* ================================================================== *)

Inductive TaskStatus : Type := todo | in_progress | review | done.
Inductive TaskPriority : Type := low | medium | high | urgent.
Inductive TaskCategory : Type :=
  development | design | marketing | testing | meeting | bug_fix.

Record Task : Type := {
  id : string;
  title : string;
  description : string;
  status : TaskStatus;
  priority : TaskPriority;
  category : TaskCategory;
  dueDate : string;
  tags : list string;
  assignee : option string;
  estimatedHours : option Z;
  createdAt : string;
  updatedAt : string
}.

(** [Omit<Task, "id" | "createdAt" | "updatedAt">], the argument of
    [addTask]. *)
Record TaskData : Type := {
  data_title : string;
  data_description : string;
  data_status : TaskStatus;
  data_priority : TaskPriority;
  data_category : TaskCategory;
  data_dueDate : string;
  data_tags : list string;
  data_assignee : option string;
  data_estimatedHours : option Z
}.

(** [Partial<Task>], the second argument of [updateTask]: every field of
    [Task] may be present ([Some]) or absent ([None]), [id], [createdAt]
    and [updatedAt] included.  For the two optional fields of [Task] a
    present value may itself be [undefined]. *)
Record PartialTask : Type := {
  upd_id : option string;
  upd_title : option string;
  upd_description : option string;
  upd_status : option TaskStatus;
  upd_priority : option TaskPriority;
  upd_category : option TaskCategory;
  upd_dueDate : option string;
  upd_tags : option (list string);
  upd_assignee : option (option string);
  upd_estimatedHours : option (option Z);
  upd_createdAt : option string;
  upd_updatedAt : option string
}.

(** The object literal [{}]. *)
Definition no_updates : PartialTask :=
  {| upd_id := None; upd_title := None; upd_description := None;
     upd_status := None; upd_priority := None; upd_category := None;
     upd_dueDate := None; upd_tags := None; upd_assignee := None;
     upd_estimatedHours := None; upd_createdAt := None;
     upd_updatedAt := None |}.

Inductive UserRole : Type := admin | regular_user | guest.

Record User : Type := {
  user_id : string;
  user_name : string;
  user_email : string;
  user_avatar : option string;
  user_role : UserRole;
  user_joinedAt : string
}.

Inductive ThemeMode : Type := light | dark.

Record TaskFilters : Type := {
  filter_status : option (list TaskStatus);
  filter_priority : option (list TaskPriority);
  filter_category : option (list TaskCategory);
  filter_searchQuery : option string;
  filter_dateRange : option (string * string)
}.

Inductive SortOption : Type :=
  newest | oldest | by_priority | by_dueDate | by_title.

(* ================================================================== *)
(** ** Generic helpers *)
(* ================================================================== *)

Module Helpers.

(** [truncate(text, maxLength)]. *)
Definition truncate (text : string) (maxLength : Z) : string :=
  if JS.length text <=? maxLength then text
  else JS.substring text 0 maxLength ++ "...".

End Helpers.

(* ================================================================== *)
(** ** Date helpers ([utils/dateHelpers.ts]) *)
(* ================================================================== *)

Module DateHelpers.

Inductive DueStatus : Type := overdue | due_soon | upcoming.

Record DueDateStatus : Type := {
  due_status : DueStatus;
  color : string;
  text : string
}.

Section WithDates.

(** The [Date] objects of the runtime and the two operations on them
    that the helpers call: the constructor [new Date(s)] on a string,
    and [differenceInDays] of the date-fns library, which yields a
    whole number of days or [NaN]. *)
Variable Date : Type.
Variable new_Date : string -> Date.
Variable differenceInDays : Date -> Date -> JS.jsnum.

(** The value of [new Date()] at the time of the call. *)
Variable now : Date.

Definition getDaysUntil (date : string) : JS.jsnum :=
  differenceInDays (new_Date date) now.

Definition getDueDateStatus (dueDate : string) : DueDateStatus :=
  let daysUntil := getDaysUntil dueDate in
  if JS.lt daysUntil 0 then
    {| due_status := overdue;
       color := "text-red-600 dark:text-red-400";
       text := "Overdue by " ++ JS.interpolate (JS.Math_abs daysUntil)
               ++ " days" |}
  else if JS.strict_eq daysUntil 0 then
    {| due_status := due_soon;
       color := "text-orange-600 dark:text-orange-400";
       text := "Due today" |}
  else if JS.le daysUntil 3 then
    {| due_status := due_soon;
       color := "text-yellow-600 dark:text-yellow-400";
       text := "Due in " ++ JS.interpolate daysUntil ++ " days" |}
  else
    {| due_status := upcoming;
       color := "text-green-600 dark:text-green-400";
       text := "Due in " ++ JS.interpolate daysUntil ++ " days" |}.

End WithDates.

End DateHelpers.

(* ================================================================== *)
(** ** The store ([store/useStore.ts]) *)
(* ================================================================== *)

Module Store.

(** The data fields of [AppState]. *)
Record AppState : Type := {
  tasks : list Task;
  user : option User;
  theme : ThemeMode;
  filters : TaskFilters;
  sortBy : SortOption;
  isLoading : bool
}.

Definition no_filters : TaskFilters :=
  {| filter_status := None; filter_priority := None;
     filter_category := None; filter_searchQuery := None;
     filter_dateRange := None |}.

(** The initial state of the store. *)
Definition initial : AppState :=
  {| tasks := []; user := None; theme := light; filters := no_filters;
     sortBy := newest; isLoading := false |}.

(** A partial state, as handed to [set]: the fields to overwrite. *)
Record Patch : Type := {
  patch_tasks : option (list Task);
  patch_user : option (option User);
  patch_theme : option ThemeMode;
  patch_filters : option TaskFilters;
  patch_sortBy : option SortOption;
  patch_isLoading : option bool
}.

Definition or_else {A : Type} (o : option A) (d : A) : A :=
  match o with Some v => v | None => d end.

(** [Object.assign({}, state, patch)], what [set] stores. *)
Definition assign (state : AppState) (p : Patch) : AppState :=
  {| tasks := or_else (patch_tasks p) (tasks state);
     user := or_else (patch_user p) (user state);
     theme := or_else (patch_theme p) (theme state);
     filters := or_else (patch_filters p) (filters state);
     sortBy := or_else (patch_sortBy p) (sortBy state);
     isLoading := or_else (patch_isLoading p) (isLoading state) |}.

Definition no_patch : Patch :=
  {| patch_tasks := None; patch_user := None; patch_theme := None;
     patch_filters := None; patch_sortBy := None;
     patch_isLoading := None |}.

(** *** The world an action runs in *)

(** The store's state, the successive readings of the millisecond clock
    and of [Math.random().toString(36)] with the number already consumed,
    and whether the document's root element carries the class [dark]. *)
Record World : Type := {
  state : AppState;
  clock : nat -> Z;
  ticks : nat;
  random : nat -> string;
  draws : nat;
  darkClass : bool
}.

Definition M (A : Type) : Type := World -> A * World.

Definition ret {A : Type} (a : A) : M A := fun w => (a, w).

Definition bind {A B : Type} (m : M A) (k : A -> M B) : M B :=
  fun w => let (a, w') := m w in k a w'.

Notation "x <- m ;; k" := (bind m (fun x => k))
  (at level 61, m at next level, right associativity).
Notation "m ;;; k" := (bind m (fun _ => k))
  (at level 61, right associativity).

(** The world an action leaves. *)
Definition exec {A : Type} (m : M A) (w : World) : World := snd (m w).

Fixpoint mapM {A B : Type} (f : A -> M B) (l : list A) : M (list B) :=
  match l with
  | [] => ret []
  | a :: l' => b <- f a ;; bs <- mapM f l' ;; ret (b :: bs)
  end.

(** The world after one more clock read. *)
Definition tick (w : World) : World :=
  {| state := state w; clock := clock w; ticks := S (ticks w);
     random := random w; draws := draws w; darkClass := darkClass w |}.

(** [Date.now()]. *)
Definition Date_now : M Z := fun w => (clock w (ticks w), tick w).

(** [new Date().toISOString()]. *)
Definition new_Date_toISOString : M string :=
  ms <- Date_now ;; ret (JS.toISOString ms).

(** [Math.random().toString(36)]. *)
Definition Math_random_toString36 : M string := fun w =>
  (random w (draws w),
   {| state := state w; clock := clock w; ticks := ticks w;
      random := random w; draws := S (draws w);
      darkClass := darkClass w |}).

(** [document.documentElement.classList.add("dark")] ([true]) and
    [.remove("dark")] ([false]). *)
Definition classList_dark (present : bool) : M unit := fun w =>
  (tt,
   {| state := state w; clock := clock w; ticks := ticks w;
      random := random w; draws := draws w; darkClass := present |}).

(** [get()]. *)
Definition get : M AppState := fun w => (state w, w).

Definition put (s : AppState) : M unit := fun w =>
  (tt,
   {| state := s; clock := clock w; ticks := ticks w;
      random := random w; draws := draws w; darkClass := darkClass w |}).

(** [set(partial)] with an object. *)
Definition set_partial (p : Patch) : M unit :=
  s <- get ;; put (assign s p).

(** [set((state) => partial)] with an updater function. *)
Definition set (f : AppState -> M Patch) : M unit :=
  s <- get ;; p <- f s ;; put (assign s p).

(** *** Actions *)

Definition generateId : M string :=
  ms <- Date_now ;;
  r <- Math_random_toString36 ;;
  ret (JS.toString ms ++ "-" ++ JS.substr r 2 9).

Definition addTask (taskData : TaskData) : M unit :=
  new_id <- generateId ;;
  created <- new_Date_toISOString ;;
  updated <- new_Date_toISOString ;;
  let newTask :=
    {| id := new_id;
       title := data_title taskData;
       description := data_description taskData;
       status := data_status taskData;
       priority := data_priority taskData;
       category := data_category taskData;
       dueDate := data_dueDate taskData;
       tags := data_tags taskData;
       assignee := data_assignee taskData;
       estimatedHours := data_estimatedHours taskData;
       createdAt := created;
       updatedAt := updated |} in
  set (fun state =>
    ret {| patch_tasks := Some (newTask :: tasks state);
           patch_user := None; patch_theme := None;
           patch_filters := None; patch_sortBy := None;
           patch_isLoading := None |}).

(** [{ ...task, ...updates, updatedAt: now }]. *)
Definition spread (task : Task) (updates : PartialTask) (now : string)
  : Task :=
  {| id := or_else (upd_id updates) (id task);
     title := or_else (upd_title updates) (title task);
     description := or_else (upd_description updates) (description task);
     status := or_else (upd_status updates) (status task);
     priority := or_else (upd_priority updates) (priority task);
     category := or_else (upd_category updates) (category task);
     dueDate := or_else (upd_dueDate updates) (dueDate task);
     tags := or_else (upd_tags updates) (tags task);
     assignee := or_else (upd_assignee updates) (assignee task);
     estimatedHours :=
       or_else (upd_estimatedHours updates) (estimatedHours task);
     createdAt := or_else (upd_createdAt updates) (createdAt task);
     updatedAt := now |}.

(** The callback [updateTask] maps over the list: the clock is read once
    for each task whose id matches. *)
Definition update_one (i : string) (updates : PartialTask) (task : Task)
  : M Task :=
  if String.eqb (id task) i then
    now <- new_Date_toISOString ;; ret (spread task updates now)
  else ret task.

Definition updateTask (i : string) (updates : PartialTask) : M unit :=
  set (fun state =>
    ts <- mapM (update_one i updates) (tasks state) ;;
    ret {| patch_tasks := Some ts;
           patch_user := None; patch_theme := None;
           patch_filters := None; patch_sortBy := None;
           patch_isLoading := None |}).

Definition deleteTask (i : string) : M unit :=
  set (fun state =>
    ret {| patch_tasks :=
             Some (filter (fun task => negb (String.eqb (id task) i))
                          (tasks state));
           patch_user := None; patch_theme := None;
           patch_filters := None; patch_sortBy := None;
           patch_isLoading := None |}).

(** The object literal [{ status: newStatus }]. *)
Definition status_only (newStatus : TaskStatus) : PartialTask :=
  {| upd_id := None; upd_title := None; upd_description := None;
     upd_status := Some newStatus; upd_priority := None;
     upd_category := None; upd_dueDate := None; upd_tags := None;
     upd_assignee := None; upd_estimatedHours := None;
     upd_createdAt := None; upd_updatedAt := None |}.

Definition moveTask (i : string) (newStatus : TaskStatus) : M unit :=
  updateTask i (status_only newStatus).

Definition setUser (u : option User) : M unit :=
  set_partial
    {| patch_tasks := None; patch_user := Some u; patch_theme := None;
       patch_filters := None; patch_sortBy := None;
       patch_isLoading := None |}.

Definition logout : M unit :=
  set_partial
    {| patch_tasks := Some []; patch_user := Some None;
       patch_theme := None; patch_filters := None; patch_sortBy := None;
       patch_isLoading := None |}.

Definition theme_only (t : ThemeMode) : Patch :=
  {| patch_tasks := None; patch_user := None; patch_theme := Some t;
     patch_filters := None; patch_sortBy := None;
     patch_isLoading := None |}.

Definition is_dark (t : ThemeMode) : bool :=
  match t with dark => true | light => false end.

Definition toggleTheme : M unit :=
  s <- get ;;
  let newTheme := match theme s with light => dark | dark => light end in
  classList_dark (is_dark newTheme) ;;;
  set_partial (theme_only newTheme).

Definition setTheme (t : ThemeMode) : M unit :=
  classList_dark (is_dark t) ;;;
  set_partial (theme_only t).

(** [{ ...state.filters, ...newFilters }]. *)
Definition spread_filters (old new : TaskFilters) : TaskFilters :=
  {| filter_status :=
       match filter_status new with Some v => Some v
                                  | None => filter_status old end;
     filter_priority :=
       match filter_priority new with Some v => Some v
                                    | None => filter_priority old end;
     filter_category :=
       match filter_category new with Some v => Some v
                                    | None => filter_category old end;
     filter_searchQuery :=
       match filter_searchQuery new with Some v => Some v
                                       | None => filter_searchQuery old end;
     filter_dateRange :=
       match filter_dateRange new with Some v => Some v
                                     | None => filter_dateRange old end |}.

Definition filters_only (f : TaskFilters) : Patch :=
  {| patch_tasks := None; patch_user := None; patch_theme := None;
     patch_filters := Some f; patch_sortBy := None;
     patch_isLoading := None |}.

Definition setFilters (newFilters : TaskFilters) : M unit :=
  set (fun state =>
    ret (filters_only (spread_filters (filters state) newFilters))).

Definition clearFilters : M unit :=
  set_partial (filters_only no_filters).

Definition setSortBy (s : SortOption) : M unit :=
  set_partial
    {| patch_tasks := None; patch_user := None; patch_theme := None;
       patch_filters := None; patch_sortBy := Some s;
       patch_isLoading := None |}.

(** One entry of [demoTasks]: the fields are evaluated in the order they
    are written, so the reads are: the id, the due date [daysAhead] days
    from now, then the two timestamps. *)
Definition demoTask (title_ description_ : string) (status_ : TaskStatus)
    (priority_ : TaskPriority) (category_ : TaskCategory) (daysAhead : Z)
    (tags_ : list string) (hours : Z) : M Task :=
  new_id <- generateId ;;
  ms <- Date_now ;;
  created <- new_Date_toISOString ;;
  updated <- new_Date_toISOString ;;
  ret {| id := new_id;
         title := title_;
         description := description_;
         status := status_;
         priority := priority_;
         category := category_;
         dueDate :=
           JS.toISOString (ms + daysAhead * 24 * 60 * 60 * 1000);
         tags := tags_;
         assignee := None;
         estimatedHours := Some hours;
         createdAt := created;
         updatedAt := updated |}.

Definition initializeDemo : M unit :=
  t1 <- demoTask "Design Main Interface"
          "Create a professional design for the homepage with attractive colors"
          in_progress high design 2 ["UI"; "Design"; "Homepage"] 8 ;;
  t2 <- demoTask "Fix Bug on Registration Page"
          "Users are unable to log in from the browser"
          todo urgent bug_fix 1 ["Bug"; "Auth"; "Critical"] 3 ;;
  t3 <- demoTask "Write Unit Tests"
          "Write tests for the main components"
          review medium testing 5 ["Testing"; "Quality"] 10 ;;
  set_partial
    {| patch_tasks := Some [t1; t2; t3]; patch_user := None;
       patch_theme := None; patch_filters := None; patch_sortBy := None;
       patch_isLoading := None |}.

(** *** What the [persist] middleware is configured to write *)

(** The values of the data fields of the state. *)
Inductive Field : Type :=
| FTasks : list Task -> Field
| FUser : option User -> Field
| FTheme : ThemeMode -> Field
| FFilters : TaskFilters -> Field
| FSortBy : SortOption -> Field
| FIsLoading : bool -> Field.

(** A plain object: its own fields, in insertion order. *)
Definition Obj : Type := list (string * Field).

(** The storage key. *)
Definition name : string := "taskflow-storage".

Definition partialize (state : AppState) : Obj :=
  [ ("tasks", FTasks (tasks state));
    ("user", FUser (user state));
    ("theme", FTheme (theme state)) ].

Definition keys (o : Obj) : list string := map fst o.

Fixpoint field (k : string) (o : Obj) : option Field :=
  match o with
  | [] => None
  | (k', v) :: o' => if String.eqb k' k then Some v else field k o'
  end.

End Store.

(* ================================================================== *)
(** ** The task hook ([useTasks]) *)
(* ================================================================== *)

Module UseTasks.

Import Store.

(** The hook's [moveTask]: the argument object is built first (one clock
    read), then handed to the store's [updateTask]. *)
Definition moveTask (taskId : string) (newStatus : TaskStatus) : M unit :=
  now <- new_Date_toISOString ;;
  updateTask taskId
    {| upd_id := None; upd_title := None; upd_description := None;
       upd_status := Some newStatus; upd_priority := None;
       upd_category := None; upd_dueDate := None; upd_tags := None;
       upd_assignee := None; upd_estimatedHours := None;
       upd_createdAt := None; upd_updatedAt := Some now |}.

End UseTasks.

(* ================================================================== *)
(** ** Sequences of store operations *)
(* ================================================================== *)

Module Session.

Import Store.

(** The operations a client of the store can invoke. *)
Inductive Action : Type :=
| AddTask (taskData : TaskData)
| UpdateTask (i : string) (updates : PartialTask)
| DeleteTask (i : string)
| MoveTask (i : string) (newStatus : TaskStatus)
| HookMoveTask (i : string) (newStatus : TaskStatus)
| SetUser (u : option User)
| Logout
| ToggleTheme
| SetTheme (t : ThemeMode)
| SetFilters (f : TaskFilters)
| ClearFilters
| SetSortBy (s : SortOption)
| InitializeDemo.

Definition perform (a : Action) : M unit :=
  match a with
  | AddTask d => addTask d
  | UpdateTask i u => updateTask i u
  | DeleteTask i => deleteTask i
  | MoveTask i s => Store.moveTask i s
  | HookMoveTask i s => UseTasks.moveTask i s
  | SetUser u => setUser u
  | Logout => logout
  | ToggleTheme => toggleTheme
  | SetTheme t => setTheme t
  | SetFilters f => setFilters f
  | ClearFilters => clearFilters
  | SetSortBy s => setSortBy s
  | InitializeDemo => initializeDemo
  end.

Fixpoint perform_all (l : list Action) : M unit :=
  match l with
  | [] => ret tt
  | a :: l' => perform a ;;; perform_all l'
  end.

(** The ids held by the store. *)
Definition ids (s : AppState) : list string := map id (tasks s).

Definition mem (i : string) (l : list string) : bool :=
  existsb (String.eqb i) l.

Fixpoint distinct (l : list string) : bool :=
  match l with
  | [] => true
  | i :: l' => negb (mem i l') && distinct l'
  end.

(** The id [generateId] returns when it is called after [dt] further
    clock reads and [dr] further random draws. *)
Definition id_at (w : World) (dt dr : nat) : string :=
  JS.toString (clock w (dt + ticks w)) ++ "-" ++
  JS.substr (random w (dr + draws w)) 2 9.

(** An operation keeps ids apart when the ids it draws are new (and, for
    [initializeDemo], distinct from one another: each of its three tasks
    reads the clock four times and draws once), and when the id it writes
    into a task, if any, is that task's own or is held by no task. *)
Definition keeps_ids_apart (a : Action) (w : World) : bool :=
  match a with
  | AddTask _ => negb (mem (id_at w 0 0) (ids (state w)))
  | InitializeDemo => distinct [id_at w 0 0; id_at w 4 1; id_at w 8 2]
  | UpdateTask i u =>
      match upd_id u with
      | None => true
      | Some j => String.eqb j i || negb (mem j (ids (state w)))
      end
  | _ => true
  end.

Fixpoint all_keep_ids_apart (l : list Action) (w : World) : bool :=
  match l with
  | [] => true
  | a :: l' =>
      keeps_ids_apart a w && all_keep_ids_apart l' (exec (perform a) w)
  end.

End Session.

(* ================================================================== *)
(** ** Concrete worlds used in the examples *)
(* ================================================================== *)

Module Examples.

Import Store.

Definition someData : TaskData :=
  {| data_title := "Write report"; data_description := "";
     data_status := todo; data_priority := medium;
     data_category := development;
     data_dueDate := "2023-12-01T00:00:00.000Z"; data_tags := [];
     data_assignee := None; data_estimatedHours := None |}.

Definition someTask (i created updated : string) : Task :=
  {| id := i; title := "Write report"; description := "";
     status := todo; priority := medium; category := development;
     dueDate := "2023-12-01T00:00:00.000Z"; tags := [];
     assignee := None; estimatedHours := None;
     createdAt := created; updatedAt := updated |}.

Definition world (s : AppState) (c : nat -> Z) (r : nat -> string)
  : World :=
  {| state := s; clock := c; ticks := 0; random := r; draws := 0;
     darkClass := false |}.

Definition with_tasks (ts : list Task) : AppState :=
  {| tasks := ts; user := None; theme := light; filters := no_filters;
     sortBy := newest; isLoading := false |}.

(** A clock that shows one more millisecond at every read. *)
Definition running_clock : nat -> Z :=
  fun n => 1700000000000 + Z.of_nat n.

(** A clock that stands at the same millisecond for two reads and shows
    the next one from the third read on. *)
Definition ticking_clock : nat -> Z :=
  fun n => match n with
           | O | S O => 1700000000000
           | _ => 1700000000001
           end.

(** A clock set back to an earlier time. *)
Definition clock_set_back : nat -> Z := fun _ => 1600000000000.

Definition two_draws : nat -> string :=
  fun n => match n with
           | O => "0.4fzyo82mvyr"
           | _ => "0.k3j9x0qpl2c"
           end.

Definition same_draw : nat -> string := fun _ => "0.4fzyo82mvyr".

(** The updates [{ id: j }] and [{ createdAt: c }]. *)
Definition id_only (j : string) : PartialTask :=
  {| upd_id := Some j; upd_title := None; upd_description := None;
     upd_status := None; upd_priority := None; upd_category := None;
     upd_dueDate := None; upd_tags := None; upd_assignee := None;
     upd_estimatedHours := None; upd_createdAt := None;
     upd_updatedAt := None |}.

Definition createdAt_only (c : string) : PartialTask :=
  {| upd_id := None; upd_title := None; upd_description := None;
     upd_status := None; upd_priority := None; upd_category := None;
     upd_dueDate := None; upd_tags := None; upd_assignee := None;
     upd_estimatedHours := None; upd_createdAt := Some c;
     upd_updatedAt := None |}.

(** The update [{ title: s }]. *)
Definition title_only (s : string) : PartialTask :=
  {| upd_id := None; upd_title := Some s; upd_description := None;
     upd_status := None; upd_priority := None; upd_category := None;
     upd_dueDate := None; upd_tags := None; upd_assignee := None;
     upd_estimatedHours := None; upd_createdAt := None;
     upd_updatedAt := None |}.

(** A task already in the store. *)
Definition stored_task : Task :=
  someTask "1700000000000-4fzyo82mv" "2023-11-14T22:13:20.000Z"
           "2023-11-14T22:13:20.000Z".

Definition task_a : Task :=
  someTask "a" "2023-11-14T22:13:20.000Z" "2023-11-14T22:13:20.000Z".

Definition task_b : Task :=
  someTask "b" "2023-11-14T22:13:20.000Z" "2023-11-14T22:13:20.000Z".

(** The store at start, under a running clock. *)
Definition fresh : World := world initial running_clock two_draws.

Definition one_task : World :=
  world (with_tasks [task_a]) running_clock two_draws.

Definition two_tasks : World :=
  world (with_tasks [task_a; task_b]) running_clock two_draws.

(** The task [task_a], stamped in 2023, under a clock set back to
    2020. *)
Definition one_task_clock_back : World :=
  world (with_tasks [task_a]) clock_set_back two_draws.

(** The store at start, and the store holding [stored_task], when the
    clock moves on after two reads and [Math.random] draws 0.4fzyo82mvyr
    (in base 36). *)
Definition fresh_ticking : World := world initial ticking_clock same_draw.

Definition holding_stored_task : World :=
  world (with_tasks [stored_task]) ticking_clock same_draw.

(** A runtime for the date helpers: a [Date] is its time value, and the
    difference in days is the difference of the time values in whole days,
    rounded towards zero. *)
Definition wholeDays (a b : Z) : JS.jsnum :=
  JS.Num (Z.quot (a - b) JS.msPerDay).

(** Two tasks are added, then the first one is given the id of the
    second. *)
Definition clashing_session : list Session.Action :=
  [ Session.AddTask someData;
    Session.AddTask someData;
    Session.UpdateTask "1700000000000-4fzyo82mv"
                       (id_only "1700000000003-k3j9x0qpl") ].

(** A session that uses every kind of operation. *)
Definition busy_session : list Session.Action :=
  [ Session.AddTask someData;
    Session.AddTask someData;
    Session.UpdateTask "1700000000000-4fzyo82mv" (title_only "Report");
    Session.UpdateTask "1700000000000-4fzyo82mv" (id_only "task-1");
    Session.MoveTask "task-1" in_progress;
    Session.HookMoveTask "task-1" done;
    Session.ToggleTheme;
    Session.SetTheme light;
    Session.SetFilters no_filters;
    Session.ClearFilters;
    Session.SetSortBy oldest;
    Session.DeleteTask "1700000000003-k3j9x0qpl";
    Session.SetUser None;
    Session.Logout;
    Session.InitializeDemo ].

End Examples.

(* ================================================================== *)
(** ** Predicates used in the statements *)
(* ================================================================== *)

Module Spec.

Import Store.

(** What [updateTask i updates], started in the world [w], does to one
    task [t], giving [t']: a task with another id is kept as it is, and
    a task with the id [i] becomes the [spread] of itself, the updates
    and the ISO string of one of the clock readings still to come. *)
Definition updated_from (i : string) (updates : PartialTask) (w : World)
    (t t' : Task) : Prop :=
  (id t <> i -> t' = t) /\
  (id t = i ->
   exists k, (ticks w <= k)%nat /\
             t' = spread t updates (JS.toISOString (clock w k))).

(** What [updateTask i updates], started in the world [w], does to one
    task [t], giving [t'], when the clock has been read [n] times at the
    end of the call: a task with another id is kept as it is, and a task
    with the id [i] becomes the [spread] of itself, the updates and the
    ISO string of one of the clock readings taken during the call. *)
Definition updated_during (i : string) (updates : PartialTask) (w : World)
    (n : nat) (t t' : Task) : Prop :=
  (id t <> i -> t' = t) /\
  (id t = i ->
   exists k, (ticks w <= k < n)%nat /\
             t' = spread t updates (JS.toISOString (clock w k))).

(** The identity of a task from [t] to [t'], through a call of
    [updateTask i updates] that takes the world from [w] to [w'].  A task
    with another id than [i] is unchanged.  A task with the id [i] keeps
    its [id] exactly when the updates carry no id or its own, and keeps its
    [createdAt] exactly when they carry none or its own; its [updatedAt] is
    the ISO string of a clock reading taken during the call, and that
    string is not below the former [updatedAt] when the former is the ISO
    string of a time that is not later than the reading, both being times
    with a year of four digits. *)
Definition keeps_identity (i : string) (updates : PartialTask)
    (w w' : World) (t t' : Task) : Prop :=
  (id t <> i -> t' = t) /\
  (id t = i ->
   (id t' = id t <->
    upd_id updates = None \/ upd_id updates = Some (id t)) /\
   (createdAt t' = createdAt t <->
    upd_createdAt updates = None \/
    upd_createdAt updates = Some (createdAt t)) /\
   exists k,
     (ticks w <= k < ticks w')%nat /\
     updatedAt t' = JS.toISOString (clock w k) /\
     forall p,
       updatedAt t = JS.toISOString p ->
       Calendar.four_digit_year p ->
       Calendar.four_digit_year (clock w k) ->
       p <= clock w k ->
       JS.str_le (updatedAt t) (updatedAt t') = true).

(** Two tasks with the same fields, [updatedAt] apart. *)
Definition same_but_updatedAt (t t' : Task) : Prop :=
  id t = id t' /\ title t = title t' /\ description t = description t' /\
  status t = status t' /\ priority t = priority t' /\
  category t = category t' /\ dueDate t = dueDate t' /\
  tags t = tags t' /\ assignee t = assignee t' /\
  estimatedHours t = estimatedHours t' /\ createdAt t = createdAt t'.

(** Two lists of tasks made from the same list by updates of the tasks
    with the id [i]: position by position, the same task when its id is
    not [i], and otherwise the same fields, [updatedAt] apart. *)
Definition same_but_stamps_of (i : string) (ts ts' : list Task) : Prop :=
  Forall2 (fun t t' => same_but_updatedAt t t' /\ (id t <> i -> t' = t))
          ts ts'.


(** Writing the id [j] over the id [i]. *)
Definition rename (i j : string) (x : string) : string :=
  if String.eqb x i then j else x.

End Spec.

(* ================================================================== *)
(** ** The views of the task hook ([useTasks]) *)
(* ================================================================== *)

Module TaskViews.

Import Store.

(** [a === b] on two statuses. *)
Definition status_eqb (a b : TaskStatus) : bool :=
  match a, b with
  | todo, todo | in_progress, in_progress
  | review, review | done, done => true
  | _, _ => false
  end.

(** The four Kanban columns. *)
Record Columns : Type := {
  col_todo : list Task;
  col_inProgress : list Task;
  col_review : list Task;
  col_done : list Task
}.

Definition tasksByStatus (ts : list Task) : Columns :=
  {| col_todo := filter (fun t => status_eqb (status t) todo) ts;
     col_inProgress := filter (fun t => status_eqb (status t) in_progress) ts;
     col_review := filter (fun t => status_eqb (status t) review) ts;
     col_done := filter (fun t => status_eqb (status t) done) ts |}.

Record Stats : Type := {
  total : nat;
  completed : nat;
  inProgress : nat;
  overdue : nat
}.

(** [array.filter(p)] for a callback [p] that reads the world. *)
Fixpoint filterM {A : Type} (p : A -> M bool) (l : list A) : M (list A) :=
  match l with
  | [] => ret []
  | a :: l' =>
      b <- p a ;;
      rest <- filterM p l' ;;
      ret (if b then a :: rest else rest)
  end.

Section WithDateParse.

(** The time value of [new Date(s)] for a string [s]: a number of
    milliseconds, or [NaN] when [s] is not a date. *)
Variable Date_value : string -> JS.jsnum.

(** The callback of the [overdue] count,
    [new Date(t.dueDate) < new Date() && t.status !== "done"]:
    the clock is read for every task. *)
Definition is_overdue_open (t : Task) : M bool :=
  now <- Date_now ;;
  ret (JS.lt (Date_value (dueDate t)) now
       && negb (status_eqb (status t) done)).

Definition stats (ts : list Task) : M Stats :=
  late <- filterM is_overdue_open ts ;;
  ret {| total := List.length ts;
         completed :=
           List.length (filter (fun t => status_eqb (status t) done) ts);
         inProgress :=
           List.length
             (filter (fun t => status_eqb (status t) in_progress) ts);
         overdue := List.length late |}.

End WithDateParse.

End TaskViews.

(* ================================================================== *)
(** ** More of the generic helpers *)
(* ================================================================== *)

Module MoreHelpers.

(** *** [generateId], as the helpers have it *)

Definition generateId : Store.M string :=
  Store.bind Store.Date_now (fun ms =>
  Store.bind Store.Math_random_toString36 (fun r =>
  Store.ret (JS.toString ms ++ "-" ++ JS.substring r 2 11))).

(** *** [isOverdue] *)

Section WithDateParse.

(** The time value of [new Date(s)]: milliseconds, or [NaN] when [s] is
    not a date. *)
Variable Date_value : string -> JS.jsnum.

(** [new Date(dueDate) < new Date()]. *)
Definition isOverdue (dueDate : string) : Store.M bool :=
  Store.bind Store.Date_now (fun now =>
  Store.ret (JS.lt (Date_value dueDate) now)).

End WithDateParse.

(** *** [getInitials] *)

(** [s.split(sep)] for a separator of one code unit. *)
Fixpoint split (sep : ascii) (s : string) : list string :=
  match s with
  | "" => [""]
  | String c s' =>
      if Ascii.eqb c sep then "" :: split sep s'
      else match split sep s' with
           | w :: ws => String c w :: ws
           | [] => [String c ""]
           end
  end.

(** [word[0]]: the first code unit as a string, [undefined] for the empty
    string. *)
Definition char0 (word : string) : option string :=
  match word with
  | "" => None
  | String c _ => Some (String c "")
  end.

(** [array.join('')]: [undefined] elements count as empty strings. *)
Fixpoint join (l : list (option string)) : string :=
  match l with
  | [] => ""
  | Some s :: l' => s ++ join l'
  | None :: l' => join l'
  end.

Section Initials.

(** [String.prototype.toUpperCase]. *)
Variable toUpperCase : string -> string.

Definition getInitials (name : string) : string :=
  JS.substring (toUpperCase (join (map char0 (split " " name)))) 0 2.

End Initials.

(** *** [groupBy] and [isEmpty] *)

(** The result of a call that may throw. *)
Inductive Outcome (A : Type) : Type :=
| Returned : A -> Outcome A
| Threw : Outcome A.

Arguments Returned {A} _.
Arguments Threw {A}.

(** [Object.keys(obj).length === 0], for an object given by its own
    fields. *)
Definition isEmpty {V : Type} (obj : list (string * V)) : bool :=
  Nat.eqb (List.length (map fst obj)) 0.

Section GroupBy.

(** The elements, and the string [String(item[key])] of each. *)
Variable T : Type.
Variable key : T -> string.

(** The names every object inherits from [Object.prototype]
    ([constructor], [toString], ...): [result[group]] finds a value for
    them, one that is truthy and has no [push], in an object that has no
    own field of that name. *)
Variable inherited : string -> bool.

(** The own fields of [result]: each group with its array. *)
Definition Groups : Type := list (string * list T).

Fixpoint own (group : string) (result : Groups) : option (list T) :=
  match result with
  | [] => None
  | (g, arr) :: result' =>
      if String.eqb g group then Some arr else own group result'
  end.

(** [result[group].push(item)] when [group] is an own field. *)
Fixpoint push (group : string) (item : T) (result : Groups) : Groups :=
  match result with
  | [] => []
  | (g, arr) :: result' =>
      if String.eqb g group then (g, (arr ++ [item])%list) :: result'
      else (g, arr) :: push group item result'
  end.

(** The reducer.  An own field holds an array, which is truthy: the item
    is pushed to it.  A name that is not an own field but is inherited has
    a truthy value too, so no array is made, and the call of its missing
    [push] throws.  Otherwise the field is made with an empty array and
    the item pushed to it. *)
Definition group_step (result : Groups) (item : T) : Outcome Groups :=
  let group := key item in
  match own group result with
  | Some _ => Returned (push group item result)
  | None =>
      if inherited group then Threw
      else Returned (result ++ [(group, [item])])%list
  end.

(** [array.reduce(step, init)], stopped by the first throw. *)
Fixpoint reduce (array : list T) (acc : Groups) : Outcome Groups :=
  match array with
  | [] => Returned acc
  | item :: array' =>
      match group_step acc item with
      | Returned acc' => reduce array' acc'
      | Threw => Threw
      end
  end.

Definition groupBy (array : list T) : Outcome Groups := reduce array [].

End GroupBy.

End MoreHelpers.

(* ================================================================== *)
(** ** Colour helpers ([utils/colorHelpers.ts]) *)
(* ================================================================== *)

Module ColorHelpers.

Record PriorityColor : Type := {
  pc_bg : string; pc_text : string; pc_border : string; pc_dot : string
}.

Definition getPriorityColor (p : TaskPriority) : PriorityColor :=
  match p with
  | urgent =>
      {| pc_bg := "bg-red-100 dark:bg-red-900/30";
         pc_text := "text-red-700 dark:text-red-400";
         pc_border := "border-red-200 dark:border-red-800";
         pc_dot := "bg-red-500" |}
  | high =>
      {| pc_bg := "bg-orange-100 dark:bg-orange-900/30";
         pc_text := "text-orange-700 dark:text-orange-400";
         pc_border := "border-orange-200 dark:border-orange-800";
         pc_dot := "bg-orange-500" |}
  | medium =>
      {| pc_bg := "bg-yellow-100 dark:bg-yellow-900/30";
         pc_text := "text-yellow-700 dark:text-yellow-400";
         pc_border := "border-yellow-200 dark:border-yellow-800";
         pc_dot := "bg-yellow-500" |}
  | low =>
      {| pc_bg := "bg-green-100 dark:bg-green-900/30";
         pc_text := "text-green-700 dark:text-green-400";
         pc_border := "border-green-200 dark:border-green-800";
         pc_dot := "bg-green-500" |}
  end.

Record StatusColor : Type := {
  sc_bg : string; sc_text : string; sc_border : string
}.

Definition getStatusColor (s : TaskStatus) : StatusColor :=
  match s with
  | todo =>
      {| sc_bg := "bg-gray-100 dark:bg-gray-800";
         sc_text := "text-gray-700 dark:text-gray-300";
         sc_border := "border-gray-200 dark:border-gray-700" |}
  | in_progress =>
      {| sc_bg := "bg-blue-100 dark:bg-blue-900/30";
         sc_text := "text-blue-700 dark:text-blue-400";
         sc_border := "border-blue-200 dark:border-blue-800" |}
  | review =>
      {| sc_bg := "bg-purple-100 dark:bg-purple-900/30";
         sc_text := "text-purple-700 dark:text-purple-400";
         sc_border := "border-purple-200 dark:border-purple-800" |}
  | done =>
      {| sc_bg := "bg-green-100 dark:bg-green-900/30";
         sc_text := "text-green-700 dark:text-green-400";
         sc_border := "border-green-200 dark:border-green-800" |}
  end.

Definition getCategoryColor (c : TaskCategory) : string :=
  match c with
  | development => "bg-blue-500"
  | design => "bg-pink-500"
  | marketing => "bg-purple-500"
  | testing => "bg-orange-500"
  | meeting => "bg-yellow-500"
  | bug_fix => "bg-red-500"
  end.

End ColorHelpers.

(* ================================================================== *)
(** ** [shuffleArray] *)
(* ================================================================== *)

Module Shuffle.

Section WithElements.

Variable T : Type.

(** [a[n] = x] for an index [n] within the array. *)
Fixpoint update (a : list T) (n : nat) (x : T) : list T :=
  match a, n with
  | [], _ => []
  | _ :: a', O => x :: a'
  | y :: a', S n' => y :: update a' n' x
  end.

(** [[a[i], a[j]] = [a[j], a[i]]] for two indices within the array: both
    elements are read, then [a[i]] and [a[j]] are written.  (Outside the
    array the assignment would store [undefined] and lengthen the array;
    the loop below stays within it as long as every index drawn is below
    its bound, and the array is left as it is here otherwise.) *)
Definition swap (a : list T) (i j : nat) : list T :=
  match nth_error a i, nth_error a j with
  | Some x, Some y => update (update a i y) j x
  | _, _ => a
  end.

(** [Math.floor(Math.random() * n)] at the [k]-th call of [Math.random]. *)
Variable floor_random : nat -> nat -> nat.

(** The loop [for (let i = ...; i > 0; i--)], entered with [i] at the
    [k]-th draw. *)
Fixpoint shuffle_loop (k : nat) (i : nat) (newArray : list T) : list T :=
  match i with
  | O => newArray
  | S i' =>
      let j := floor_random k (i + 1) in
      shuffle_loop (S k) i' (swap newArray i j)
  end.

(** [shuffleArray(array)], its first draw being the [k]-th. *)
Definition shuffleArray (k : nat) (array : list T) : list T :=
  shuffle_loop k (List.length array - 1) array.

End WithElements.

End Shuffle.

(* ================================================================== *)
(** ** Further predicates used in the statements *)
(* ================================================================== *)

(* ================================================================== *)
(** ** The [persist] middleware *)
(* ================================================================== *)

Module Persist.

Import Store Session.

(** The store is created through zustand's [persist] middleware, with the
    options [name], [storage: createJSONStorage(() => localStorage)] and
    [partialize], and no [version].  The middleware wraps the [set] the
    store's actions call: after each call it hands to the storage, under
    the key [name], the object [{ state: partialize(state), version }] of
    the state just set, [version] being 0 when the options give none; the
    JSON storage writes that object to [localStorage] as its JSON text.
    Every action of the store calls [set] once, as its last step, so that
    an action is followed by one write. *)

(** The data fields of the state, as the object [partialize] is applied
    to holds them. *)
Definition snapshot (state : AppState) : Obj :=
  [ ("tasks", FTasks (tasks state));
    ("user", FUser (user state));
    ("theme", FTheme (theme state));
    ("filters", FFilters (filters state));
    ("sortBy", FSortBy (sortBy state));
    ("isLoading", FIsLoading (isLoading state)) ].

(** The values of the fields of a stored item. *)
Inductive Stored : Type :=
| SObject : Obj -> Stored
| SNumber : Z -> Stored.

(** A stored item: the object whose JSON text the slot holds, as its own
    fields in insertion order. *)
Definition Item : Type := list (string * Stored).

(** [localStorage]: the item under each key, if any. *)
Definition Storage : Type := string -> option Item.

Definition setItem (key : string) (value : Item) (storage : Storage)
  : Storage :=
  fun k => if String.eqb k key then Some value else storage k.

(** The version written when the options give none. *)
Definition version : Z := 0.

(** What the middleware hands to the storage for the state [state]. *)
Definition item_of (state : AppState) : Item :=
  [ ("state", SObject (partialize state));
    ("version", SNumber version) ].


Fixpoint item_field (k : string) (i : Item) : option Stored :=
  match i with
  | [] => None
  | (k', v) :: i' => if String.eqb k' k then Some v else item_field k i'
  end.

(** The store together with the storage it persists to. *)
Record Persisted : Type := {
  world : World;
  localStorage : Storage
}.

(** The write that follows a [set]. *)
Definition write (p : Persisted) : Persisted :=
  {| world := world p;
     localStorage :=
       setItem name (item_of (state (world p))) (localStorage p) |}.

(** An action of the store, under the middleware. *)
Definition dispatch (a : Action) (p : Persisted) : Persisted :=
  write {| world := exec (perform a) (world p);
           localStorage := localStorage p |}.

Fixpoint dispatch_all (l : list Action) (p : Persisted) : Persisted :=
  match l with
  | [] => p
  | a :: l' => dispatch_all l' (dispatch a p)
  end.

(** A storage that holds nothing. *)
Definition empty_storage : Storage := fun _ => None.

End Persist.

Module MoreSpec.

Import Store Session.

(** Every field of [t'] other than [updatedAt] is the one the updates
    carry, or the one of [t] when they carry none. *)
Definition fields_applied (u : PartialTask) (t t' : Task) : Prop :=
  id t' = or_else (upd_id u) (id t) /\
  title t' = or_else (upd_title u) (title t) /\
  description t' = or_else (upd_description u) (description t) /\
  status t' = or_else (upd_status u) (status t) /\
  priority t' = or_else (upd_priority u) (priority t) /\
  category t' = or_else (upd_category u) (category t) /\
  dueDate t' = or_else (upd_dueDate u) (dueDate t) /\
  tags t' = or_else (upd_tags u) (tags t) /\
  assignee t' = or_else (upd_assignee u) (assignee t) /\
  estimatedHours t' = or_else (upd_estimatedHours u) (estimatedHours t) /\
  createdAt t' = or_else (upd_createdAt u) (createdAt t).

(** From [t] to [t'], a task with another id than [i] is unchanged and a
    task with the id [i] has the updates applied. *)
Definition applied_to (i : string) (u : PartialTask) (t t' : Task) : Prop :=
  (id t <> i -> t' = t) /\ (id t = i -> fields_applied u t t').

(** From [t] to [t'], a task with another id than [i] is unchanged and a
    task with the id [i] has the status [s] and, [updatedAt] apart, the
    fields it had. *)
Definition moved_to (i : string) (s : TaskStatus) (t t' : Task) : Prop :=
  (id t <> i -> t' = t) /\
  (id t = i ->
   status t' = s /\ id t' = id t /\ title t' = title t /\
   description t' = description t /\ priority t' = priority t /\
   category t' = category t /\ dueDate t' = dueDate t /\
   tags t' = tags t /\ assignee t' = assignee t /\
   estimatedHours t' = estimatedHours t /\ createdAt t' = createdAt t).

(** The updates [u] without their [updatedAt] field. *)
Definition without_updatedAt (u : PartialTask) : PartialTask :=
  {| upd_id := upd_id u; upd_title := upd_title u;
     upd_description := upd_description u; upd_status := upd_status u;
     upd_priority := upd_priority u; upd_category := upd_category u;
     upd_dueDate := upd_dueDate u; upd_tags := upd_tags u;
     upd_assignee := upd_assignee u;
     upd_estimatedHours := upd_estimatedHours u;
     upd_createdAt := upd_createdAt u; upd_updatedAt := None |}.

(** The operations on the task list, and the others. *)
Definition on_tasks (a : Action) : bool :=
  match a with
  | AddTask _ | UpdateTask _ _ | DeleteTask _ | MoveTask _ _
  | HookMoveTask _ _ | InitializeDemo => true
  | _ => false
  end.

Definition is_logout (a : Action) : bool :=
  match a with Logout => true | _ => false end.

(** The operations that set what is shown and how: filters and sort
    option. *)
Definition on_view (a : Action) : bool :=
  match a with
  | SetFilters _ | ClearFilters | SetSortBy _ => true
  | _ => false
  end.

(** An operation that writes no id into a task. *)
Definition writes_no_id (a : Action) : bool :=
  match a with
  | UpdateTask _ u => match upd_id u with None => true | Some _ => false end
  | _ => true
  end.

(** The clock of [w] never shows a negative time and shows a later time at
    every read. *)
Definition clock_moves_on (w : World) : Prop :=
  (forall k, 0 <= clock w k) /\
  (forall j k, (j < k)%nat -> clock w j < clock w k).

(** The id [i] was drawn by [generateId] at one of the clock reads before
    the [n]-th. *)
Definition drawn_before (w : World) (n : nat) (i : string) : Prop :=
  exists k suffix,
    (k < n)%nat /\ i = JS.toString (clock w k) ++ "-" ++ suffix.

(** The ids in the store were all drawn at reads the clock has made. *)
Definition ids_drawn (w : World) : Prop :=
  Forall (drawn_before w (ticks w)) (ids (state w)).

(** Whether the code unit [c] occurs in [s]. *)
Fixpoint occurs (c : ascii) (s : string) : bool :=
  match s with
  | "" => false
  | String c' s' => Ascii.eqb c' c || occurs c s'
  end.

(** The code units of [s] that start a run of code units other than the
    space; [at_start] tells whether the first code unit of [s] starts
    one. *)
Fixpoint word_starts (at_start : bool) (s : string) : string :=
  match s with
  | "" => ""
  | String c s' =>
      if Ascii.eqb c " " then word_starts true s'
      else if at_start then String c (word_starts false s')
      else word_starts false s'
  end.

(** The group [g] by [key] of the list [l]: the elements whose key is [g],
    in the order of [l]; none when there is no such element. *)
Definition group_of {T : Type} (key : T -> string) (l : list T)
    (g : string) : option (list T) :=
  match filter (fun x => String.eqb (key x) g) l with
  | [] => None
  | x :: xs => Some (x :: xs)
  end.

(** The object [r] holds the groups by [key] of the list [seen], each
    under one own field. *)
Definition holds_groups {T : Type} (key : T -> string)
    (r : MoreHelpers.Groups T) (seen : list T) : Prop :=
  (forall g, MoreHelpers.own T g r = group_of key seen g) /\
  NoDup (map fst r).

(** How pressing a due-date status is. *)
Definition urgency (s : DateHelpers.DueStatus) : nat :=
  match s with
  | DateHelpers.overdue => 2
  | DateHelpers.due_soon => 1
  | DateHelpers.upcoming => 0
  end.

(** A call of [generateId]: the index of the clock read and the index of
    the draw it takes. *)
Definition Call : Type := (nat * nat)%type.

(** The calls of [generateId] an operation makes from the world [w]:
    [addTask] calls it first; [initializeDemo] calls it for each of its
    three tasks, which read the clock four times each. *)
Definition calls (a : Action) (w : World) : list Call :=
  match a with
  | AddTask _ => [ (ticks w, draws w) ]
  | InitializeDemo =>
      [ (ticks w, draws w);
        (4 + ticks w, 1 + draws w)%nat;
        (8 + ticks w, 2 + draws w)%nat ]
  | _ => []
  end.

Fixpoint all_calls (l : list Action) (w : World) : list Call :=
  match l with
  | [] => []
  | a :: l' => calls a w ++ all_calls l' (exec (perform a) w)
  end.

(** What a call of [generateId] sees: the millisecond the clock shows and
    the suffix cut from the draw. *)
Definition seen (w : World) (c : Call) : Z * string :=
  (clock w (fst c), JS.substr (random w (snd c)) 2 9).

(** The id [generateId] builds from what it sees. *)
Definition id_of (p : Z * string) : string :=
  JS.toString (fst p) ++ "-" ++ snd p.

(** The ids [generateId] returns during the operations [l]. *)
Definition generated (l : list Action) (w : World) : list string :=
  map (fun c => id_of (seen w c)) (all_calls l w).

(** An operation, followed by the operations [later], writes no clashing
    id: an [updateTask i] that carries the id [j] matches no task, or
    writes the task's own id, or writes an id that no task holds and that
    [generateId] does not return later. *)
Definition writes_no_clash (a : Action) (later : list string) (w : World)
  : Prop :=
  match a with
  | UpdateTask i u =>
      match upd_id u with
      | None => True
      | Some j =>
          ~ In i (ids (state w)) \/ j = i \/
          (~ In j (ids (state w)) /\ ~ In j later)
      end
  | _ => True
  end.

Fixpoint never_writes_a_clash (l : list Action) (w : World) : Prop :=
  match l with
  | [] => True
  | a :: l' =>
      writes_no_clash a (generated l' (exec (perform a) w)) w /\
      never_writes_a_clash l' (exec (perform a) w)
  end.

(** The ids in the store are none of the ids [later]. *)
Definition not_among (later : list string) (s : AppState) : Prop :=
  forall j, In j (ids s) -> ~ In j later.

(** Two things seen are the same: same millisecond, same suffix. *)
Definition seen_eqb (p q : Z * string) : bool :=
  Z.eqb (fst p) (fst q) && String.eqb (snd p) (snd q).

Fixpoint no_repeat (l : list (Z * string)) : bool :=
  match l with
  | [] => true
  | p :: l' => negb (existsb (seen_eqb p) l') && no_repeat l'
  end.

(** The calls of a list come one after the other: each takes a later
    clock read and a later draw than the ones before it, from the clock
    read [k] and the draw [r] on. *)
Fixpoint in_turn (k r : nat) (l : list Call) : Prop :=
  match l with
  | [] => True
  | c :: l' =>
      (k <= fst c)%nat /\ (r <= snd c)%nat /\
      in_turn (S (fst c)) (S (snd c)) l'
  end.

End MoreSpec.

(* ================================================================== *)
(** ** Further examples *)
(* ================================================================== *)

Module MoreExamples.

Import Store.

(** A session in which no [updateTask] writes an id. *)
Definition plain_session : list Session.Action :=
  [ Session.AddTask Examples.someData;
    Session.AddTask Examples.someData;
    Session.UpdateTask "1700000000000-4fzyo82mv"
                       (Examples.title_only "Report");
    Session.InitializeDemo;
    Session.AddTask Examples.someData;
    Session.HookMoveTask "1700000000004-k3j9x0qpl" done;
    Session.DeleteTask "1700000000008-k3j9x0qpl";
    Session.ToggleTheme;
    Session.AddTask Examples.someData ].

(** Upper-casing of the letters a to z, the other code units kept. *)
Definition upper_ascii (c : ascii) : ascii :=
  let n := nat_of_ascii c in
  if ((97 <=? n) && (n <=? 122))%nat then ascii_of_nat (n - 32) else c.

Fixpoint upper (s : string) : string :=
  match s with
  | "" => ""
  | String c s' => String (upper_ascii c) (upper s')
  end.

(** The names an empty object inherits. *)
Definition inherited (k : string) : bool :=
  existsb (String.eqb k)
    [ "constructor"; "toString"; "valueOf"; "hasOwnProperty";
      "isPrototypeOf"; "propertyIsEnumerable"; "toLocaleString";
      "__proto__"; "__defineGetter__"; "__defineSetter__";
      "__lookupGetter__"; "__lookupSetter__" ].

(** A runtime in which no string is a date: every difference in days is
    [NaN]. *)
Definition not_a_date (s : string) : Z := 0.

Definition no_days (a b : Z) : JS.jsnum := JS.NaN.

(** A parser for the examples: the text "2" is the date two days after
    the epoch, "6" the date six days after it, anything else the epoch. *)
Definition days_in_text (s : string) : Z :=
  if String.eqb s "2" then 2 * JS.msPerDay
  else if String.eqb s "6" then 6 * JS.msPerDay
  else 0.

(** Draws for the shuffle: the [k]-th draw below [n] is [k] modulo [n]. *)
Definition some_draws (k n : nat) : nat := Nat.modulo k n.

(** A parser for the examples: every string is the date of the time
    value 1650000000000. *)
Definition in_2022 (s : string) : JS.jsnum := JS.Num 1650000000000.

(** A clock that shows the next millisecond every fourth read. *)
Definition slow_clock : nat -> Z :=
  fun n => 1700000000000 + Z.of_nat (Nat.div n 4).

(** The store at start, under the slow clock. *)
Definition fresh_slow : World :=
  Examples.world initial slow_clock Examples.two_draws.

(** Two tasks are added within one millisecond; an update that matches no
    task carries the id of the first; the first is given its own id, then
    the id "first"; the second is deleted, the first moved, and the demo
    tasks are loaded. *)
Definition renaming_session : list Session.Action :=
  [ Session.AddTask Examples.someData;
    Session.AddTask Examples.someData;
    Session.UpdateTask "zzz" (Examples.id_only "1700000000000-4fzyo82mv");
    Session.UpdateTask "1700000000000-4fzyo82mv"
                       (Examples.id_only "1700000000000-4fzyo82mv");
    Session.UpdateTask "1700000000000-4fzyo82mv" (Examples.id_only "first");
    Session.DeleteTask "1700000000000-k3j9x0qpl";
    Session.HookMoveTask "first" done;
    Session.InitializeDemo ].

(** A clock that runs five seconds after the stamps of the example
    tasks. *)
Definition later_clock : nat -> Z :=
  fun n => 1700000005000 + Z.of_nat n.

Definition two_tasks_later : World :=
  Examples.world (Examples.with_tasks [Examples.task_a; Examples.task_b])
                 later_clock Examples.two_draws.

(** The store at start and nothing stored. *)
Definition nothing_stored : Persist.Persisted :=
  {| Persist.world := Examples.fresh;
     Persist.localStorage := Persist.empty_storage |}.

End MoreExamples.

(* ================================================================== *)
(** ** Properties *)
(* ================================================================== *)

Import Store Session Spec.

(* ================================================================== *)
(** ** The order of ISO strings *)
(* ================================================================== *)

Import Calendar.

(** *** The calendar *)

Lemma year_of_era_exact (doe : Z) :
  0 <= doe < 146096 ->
  0 <= year_of_era doe <= 399 /\
  year_start (year_of_era doe) <= doe < year_start (year_of_era doe + 1).
Proof.
  intro H. unfold year_of_era, year_start.
  Z.to_euclidean_division_equations; lia.
Qed.

Lemma year_of_era_last : year_of_era 146096 = 399.
Proof.
  reflexivity.
Qed.

Lemma year_start_mono (a b : Z) : a < b -> year_start a < year_start b.
Proof.
  intro H. unfold year_start. Z.to_euclidean_division_equations; lia.
Qed.

(** Within an era, a later day is in a later year, or in the same year
    at a later day of the year. *)
Lemma year_and_day_mono (d1 d2 : Z) :
  0 <= d1 < d2 -> d2 <= 146096 ->
  0 <= year_of_era d1 <= 399 /\ 0 <= year_of_era d2 <= 399 /\
  0 <= d1 - year_start (year_of_era d1) <= 365 /\
  0 <= d2 - year_start (year_of_era d2) <= 365 /\
  (year_of_era d1 < year_of_era d2 \/
   year_of_era d1 = year_of_era d2).
Proof.
  intros H1 H2.
  destruct (year_of_era_exact d1) as (B1 & L1 & U1); [lia|].
  assert (S1 : year_start (year_of_era d1 + 1)
               <= year_start (year_of_era d1) + 366).
  { unfold year_start. Z.to_euclidean_division_equations; lia. }
  destruct (Z.eq_dec d2 146096) as [->|N].
  - rewrite year_of_era_last. change (year_start 399) with 145731.
    repeat split; try lia.
  - destruct (year_of_era_exact d2) as (B2 & L2 & U2); [lia|].
    assert (S2 : year_start (year_of_era d2 + 1)
                 <= year_start (year_of_era d2) + 366).
    { unfold year_start. Z.to_euclidean_division_equations; lia. }
    repeat split; try lia.
    destruct (Z.lt_trichotomy (year_of_era d1) (year_of_era d2))
      as [Hlt|[Heq|Hgt]]; [now left | now right | exfalso].
    assert (year_start (year_of_era d2 + 1) <= year_start (year_of_era d1)).
    { destruct (Z.eq_dec (year_of_era d2 + 1) (year_of_era d1)) as [->|Hn];
        [lia|].
      apply Z.lt_le_incl, year_start_mono. lia. }
    lia.
Qed.

Lemma month_day_bounds (doy : Z) :
  0 <= doy <= 365 ->
  (next_year doy = 0 /\ doy <= 305 /\ 301 <= month_day doy <= 1231) \/
  (next_year doy = 1 /\ 306 <= doy /\ 101 <= month_day doy <= 229).
Proof.
  intro H. unfold next_year, month_day.
  destruct (Z.ltb_spec ((5 * doy + 2) / 153) 10) as [L|L].
  - left. destruct (Z.leb_spec ((5 * doy + 2) / 153 + 3) 2) as [M|M].
    + exfalso. Z.to_euclidean_division_equations; lia.
    + split; [reflexivity|]. Z.to_euclidean_division_equations; lia.
  - right. destruct (Z.leb_spec ((5 * doy + 2) / 153 - 9) 2) as [M|M].
    + split; [reflexivity|]. Z.to_euclidean_division_equations; lia.
    + exfalso. Z.to_euclidean_division_equations; lia.
Qed.

Lemma month_day_fields (doy : Z) :
  0 <= doy <= 365 ->
  1 <= (if (5 * doy + 2) / 153 <? 10
        then (5 * doy + 2) / 153 + 3 else (5 * doy + 2) / 153 - 9) <= 12 /\
  1 <= doy - (153 * ((5 * doy + 2) / 153) + 2) / 5 + 1 <= 31.
Proof.
  intro H.
  destruct (Z.ltb_spec ((5 * doy + 2) / 153) 10);
    Z.to_euclidean_division_equations; lia.
Qed.

Lemma month_day_mono (a b : Z) :
  0 <= a < b -> b <= 365 -> next_year a = next_year b ->
  month_day a < month_day b.
Proof.
  intros H1 H2. unfold next_year, month_day.
  destruct (Z.ltb_spec ((5 * a + 2) / 153) 10) as [La|La];
    destruct (Z.ltb_spec ((5 * b + 2) / 153) 10) as [Lb|Lb];
    destruct (Z.leb_spec ((5 * a + 2) / 153 + 3) 2);
    destruct (Z.leb_spec ((5 * a + 2) / 153 - 9) 2);
    destruct (Z.leb_spec ((5 * b + 2) / 153 + 3) 2);
    destruct (Z.leb_spec ((5 * b + 2) / 153 - 9) 2);
    intro E; try discriminate E;
    Z.to_euclidean_division_equations; lia.
Qed.

Lemma year_day_bounds (doe : Z) :
  0 <= doe <= 146096 ->
  0 <= year_of_era doe <= 399 /\
  0 <= doe - year_start (year_of_era doe) <= 365.
Proof.
  intro H. unfold year_of_era, year_start.
  Z.to_euclidean_division_equations; lia.
Qed.

(** The date number in terms of era, year of the era and day of the
    year. *)
Lemma date_key_eq (days : Z) :
  date_key days =
  (year_of_era (days + 719468 - (days + 719468) / 146097 * 146097)
   + (days + 719468) / 146097 * 400
   + next_year
       (days + 719468 - (days + 719468) / 146097 * 146097
        - year_start
            (year_of_era
               (days + 719468 - (days + 719468) / 146097 * 146097))))
  * 10000
  + month_day
      (days + 719468 - (days + 719468) / 146097 * 146097
       - year_start
           (year_of_era
              (days + 719468 - (days + 719468) / 146097 * 146097))).
Proof.
  unfold date_key, JS.civil, month_day, next_year, year_of_era, year_start.
  cbv zeta. ring.
Qed.

(** A later day has a greater date number. *)
Lemma date_key_mono (d1 d2 : Z) : d1 < d2 -> date_key d1 < date_key d2.
Proof.
  intro H. rewrite !date_key_eq.
  set (e1 := (d1 + 719468) / 146097). set (e2 := (d2 + 719468) / 146097).
  set (o1 := d1 + 719468 - e1 * 146097).
  set (o2 := d2 + 719468 - e2 * 146097).
  assert (R1 : 0 <= o1 <= 146096)
    by (unfold o1, e1; Z.to_euclidean_division_equations; lia).
  assert (R2 : 0 <= o2 <= 146096)
    by (unfold o2, e2; Z.to_euclidean_division_equations; lia).
  assert (C : e1 < e2 \/ (e1 = e2 /\ o1 < o2))
    by (unfold o1, o2, e1, e2; Z.to_euclidean_division_equations; lia).
  destruct (year_day_bounds o1 R1) as (Y1 & D1).
  destruct (year_day_bounds o2 R2) as (Y2 & D2).
  pose proof (month_day_bounds _ D1) as M1.
  pose proof (month_day_bounds _ D2) as M2.
  destruct C as [C|[C O]].
  - clear D1 D2. nia.
  - destruct (year_and_day_mono o1 o2) as (_ & _ & _ & _ & [L|E]);
      [lia | lia | clear D1 D2; nia |].
    rewrite E in *. rewrite C.
    destruct M1 as [(N1 & B1 & K1)|(N1 & B1 & K1)];
      destruct M2 as [(N2 & B2 & K2)|(N2 & B2 & K2)];
      rewrite ?N1, ?N2; try lia.
    + pose proof (month_day_mono
                    (o1 - year_start (year_of_era o2))
                    (o2 - year_start (year_of_era o2))) as M.
      rewrite N1, N2 in M. specialize (M ltac:(lia) ltac:(lia) eq_refl).
      lia.
    + pose proof (month_day_mono
                    (o1 - year_start (year_of_era o2))
                    (o2 - year_start (year_of_era o2))) as M.
      rewrite N1, N2 in M. specialize (M ltac:(lia) ltac:(lia) eq_refl).
      lia.
Qed.

(** The fields of a date, and the year when the day is one of the years
    0000 to 9999. *)
Lemma civil_fields (days : Z) :
  first_day <= days <= last_day ->
  0 <= fst (fst (JS.civil days)) <= 9999 /\
  1 <= snd (fst (JS.civil days)) <= 12 /\
  1 <= snd (JS.civil days) <= 31.
Proof.
  intro H.
  assert (F : 1 <= snd (fst (JS.civil days)) <= 12 /\
              1 <= snd (JS.civil days) <= 31).
  { unfold JS.civil; cbv zeta; cbn [fst snd].
    apply month_day_fields. apply year_day_bounds.
    Z.to_euclidean_division_equations; lia. }
  split; [|exact F].
  assert (L : date_key first_day <= date_key days).
  { destruct (Z.eq_dec first_day days) as [->|N]; [lia|].
    apply Z.lt_le_incl, date_key_mono. lia. }
  assert (U : date_key days <= date_key last_day).
  { destruct (Z.eq_dec days last_day) as [->|N]; [lia|].
    apply Z.lt_le_incl, date_key_mono. lia. }
  change (date_key first_day) with 101 in L.
  change (date_key last_day) with 99991231 in U.
  unfold date_key in L, U.
  destruct (JS.civil days) as [[y m] d]. cbn [fst snd] in *. lia.
Qed.

(** *** Zero-padded numbers compare as numbers *)

Lemma digit_compare (x y : Z) :
  0 <= x <= 9 -> 0 <= y <= 9 ->
  Ascii.compare (ascii_of_nat (48 + Z.to_nat x))
                (ascii_of_nat (48 + Z.to_nat y)) = (x ?= y).
Proof.
  intros Hx Hy.
  assert (Ex : x = 0 \/ x = 1 \/ x = 2 \/ x = 3 \/ x = 4 \/ x = 5 \/ x = 6
               \/ x = 7 \/ x = 8 \/ x = 9) by lia.
  assert (Ey : y = 0 \/ y = 1 \/ y = 2 \/ y = 3 \/ y = 4 \/ y = 5 \/ y = 6
               \/ y = 7 \/ y = 8 \/ y = 9) by lia.
  repeat (destruct Ex as [->|Ex]); try subst x;
    repeat (destruct Ey as [->|Ey]); try subst y; reflexivity.
Qed.

Lemma append_assoc (a b c : string) : (a ++ b) ++ c = a ++ (b ++ c).
Proof.
  induction a as [|x a IH]; cbn; [reflexivity | now rewrite IH].
Qed.

Lemma compare_pad (w : nat) (a b : Z) (r r' : string) :
  0 <= a < 10 ^ Z.of_nat w -> 0 <= b < 10 ^ Z.of_nat w ->
  String.compare (JS.pad w a ++ r) (JS.pad w b ++ r')
  = match a ?= b with Eq => String.compare r r' | c => c end.
Proof.
  revert a b r r'; induction w as [|w IH]; intros a b r r' Ha Hb.
  - cbn in *. assert (a = 0) by lia. assert (b = 0) by lia. subst.
    reflexivity.
  - rewrite Nat2Z.inj_succ, Z.pow_succ_r in Ha, Hb by lia.
    cbn [JS.pad]. rewrite !append_assoc. cbn [append].
    rewrite IH by (Z.to_euclidean_division_equations; lia).
    cbn [String.compare].
    rewrite digit_compare by (Z.to_euclidean_division_equations; lia).
    destruct (Z.compare_spec (a / 10) (b / 10));
      destruct (Z.compare_spec (a mod 10) (b mod 10));
      destruct (Z.compare_spec a b);
      try reflexivity; exfalso;
      Z.to_euclidean_division_equations; lia.
Qed.

Lemma compare_same_head (c : ascii) (r r' : string) :
  String.compare (String c r) (String c r') = String.compare r r'.
Proof.
  cbn. unfold Ascii.compare. now rewrite N.compare_refl.
Qed.

(** Two ISO strings are in the order of their dates and times. *)
Lemma stamp_le (y m d hh mi ss mmm y' m' d' hh' mi' ss' mmm' : Z) :
  0 <= y <= 9999 -> 1 <= m <= 12 -> 1 <= d <= 31 ->
  0 <= hh <= 23 -> 0 <= mi <= 59 -> 0 <= ss <= 59 -> 0 <= mmm <= 999 ->
  0 <= y' <= 9999 -> 1 <= m' <= 12 -> 1 <= d' <= 31 ->
  0 <= hh' <= 23 -> 0 <= mi' <= 59 -> 0 <= ss' <= 59 -> 0 <= mmm' <= 999 ->
  ((y * 100 + m) * 100 + d) * 1000000000
  + (((hh * 100 + mi) * 100 + ss) * 1000 + mmm)
  <= ((y' * 100 + m') * 100 + d') * 1000000000
     + (((hh' * 100 + mi') * 100 + ss') * 1000 + mmm') ->
  JS.str_le (stamp y m d hh mi ss mmm) (stamp y' m' d' hh' mi' ss' mmm')
  = true.
Proof.
  intros. unfold JS.str_le, String.leb, stamp.
  rewrite compare_pad by (change (10 ^ Z.of_nat 4) with 10000; lia).
  cbn [append]. rewrite compare_same_head.
  rewrite compare_pad by (change (10 ^ Z.of_nat 2) with 100; lia).
  cbn [append]. rewrite compare_same_head.
  rewrite compare_pad by (change (10 ^ Z.of_nat 2) with 100; lia).
  cbn [append]. rewrite compare_same_head.
  rewrite compare_pad by (change (10 ^ Z.of_nat 2) with 100; lia).
  cbn [append]. rewrite compare_same_head.
  rewrite compare_pad by (change (10 ^ Z.of_nat 2) with 100; lia).
  cbn [append]. rewrite compare_same_head.
  rewrite compare_pad by (change (10 ^ Z.of_nat 2) with 100; lia).
  cbn [append]. rewrite compare_same_head.
  rewrite compare_pad by (change (10 ^ Z.of_nat 3) with 1000; lia).
  destruct (Z.compare_spec y y'); [|reflexivity|exfalso; lia].
  destruct (Z.compare_spec m m'); [|reflexivity|exfalso; lia].
  destruct (Z.compare_spec d d'); [|reflexivity|exfalso; lia].
  destruct (Z.compare_spec hh hh'); [|reflexivity|exfalso; lia].
  destruct (Z.compare_spec mi mi'); [|reflexivity|exfalso; lia].
  destruct (Z.compare_spec ss ss'); [|reflexivity|exfalso; lia].
  destruct (Z.compare_spec mmm mmm'); [|reflexivity|exfalso; lia].
  reflexivity.
Qed.

(** *** [toISOString] keeps the order of times *)

Lemma days_in_range (ms : Z) :
  four_digit_year ms -> first_day <= ms / JS.msPerDay <= last_day.
Proof.
  unfold four_digit_year, first_day, last_day, JS.msPerDay. intro H.
  Z.to_euclidean_division_equations; lia.
Qed.

Lemma toISOString_stamp (ms : Z) :
  four_digit_year ms ->
  JS.toISOString ms
  = stamp (fst (fst (JS.civil (ms / JS.msPerDay))))
          (snd (fst (JS.civil (ms / JS.msPerDay))))
          (snd (JS.civil (ms / JS.msPerDay)))
          (ms mod JS.msPerDay / 3600000)
          (ms mod JS.msPerDay / 60000 mod 60)
          (ms mod JS.msPerDay / 1000 mod 60)
          (ms mod JS.msPerDay mod 1000).
Proof.
  intro H. unfold JS.toISOString, stamp.
  pose proof (civil_fields _ (days_in_range ms H)) as (Y & _).
  destruct (JS.civil (ms / JS.msPerDay)) as [[y m] d]. cbn [fst snd] in *.
  unfold JS.year_string.
  destruct (Z.leb_spec 0 y); [|lia]. destruct (Z.leb_spec y 9999); [|lia].
  reflexivity.
Qed.

(** For two times with a year of four digits, the ISO string of the
    earlier one is not above the ISO string of the later one. *)
Lemma toISOString_mono (a b : Z) :
  four_digit_year a -> four_digit_year b -> a <= b ->
  JS.str_le (JS.toISOString a) (JS.toISOString b) = true.
Proof.
  intros Ha Hb Hab.
  rewrite (toISOString_stamp a Ha), (toISOString_stamp b Hb).
  pose proof (civil_fields _ (days_in_range a Ha)) as (Ya & Ma & Da).
  pose proof (civil_fields _ (days_in_range b Hb)) as (Yb & Mb & Db).
  assert (Ta : 0 <= a mod JS.msPerDay < 86400000)
    by (unfold JS.msPerDay; Z.to_euclidean_division_equations; lia).
  assert (Tb : 0 <= b mod JS.msPerDay < 86400000)
    by (unfold JS.msPerDay; Z.to_euclidean_division_equations; lia).
  assert (C : a / JS.msPerDay < b / JS.msPerDay \/
              (a / JS.msPerDay = b / JS.msPerDay /\
               a mod JS.msPerDay <= b mod JS.msPerDay))
    by (unfold JS.msPerDay; Z.to_euclidean_division_equations; lia).
  assert (K : forall t, 0 <= t < 86400000 ->
            0 <= t / 3600000 <= 23 /\ 0 <= t / 60000 mod 60 <= 59 /\
            0 <= t / 1000 mod 60 <= 59 /\ 0 <= t mod 1000 <= 999 /\
            t = ((t / 3600000 * 60 + t / 60000 mod 60) * 60
                 + t / 1000 mod 60) * 1000 + t mod 1000)
    by (intros t Ht; Z.to_euclidean_division_equations; lia).
  destruct (K _ Ta) as (A1 & A2 & A3 & A4 & A5).
  destruct (K _ Tb) as (B1 & B2 & B3 & B4 & B5).
  apply stamp_le; try assumption.
  destruct C as [C|[C T]].
  - apply date_key_mono in C. unfold date_key in C.
    destruct (JS.civil (a / JS.msPerDay)) as [[y m] d].
    destruct (JS.civil (b / JS.msPerDay)) as [[y' m'] d'].
    cbn [fst snd] in *. lia.
  - rewrite C.
    destruct (JS.civil (b / JS.msPerDay)) as [[y' m'] d'].
    cbn [fst snd] in *.
    set (ta := a mod JS.msPerDay) in *. set (tb := b mod JS.msPerDay) in *.
    clearbody ta tb. clear - T A1 A2 A3 A4 A5 B1 B2 B3 B4 B5.
    revert T A1 A2 A3 A4 A5 B1 B2 B3 B4 B5.
    generalize (ta / 3600000) (ta / 60000 mod 60) (ta / 1000 mod 60)
               (ta mod 1000) (tb / 3600000) (tb / 60000 mod 60)
               (tb / 1000 mod 60) (tb mod 1000).
    intros. lia.
Qed.

(** *** How [updateTask] walks the list *)

Lemma mapM_cons {A B : Type} (f : A -> M B) (a : A) (l : list A) (w : World) :
  mapM f (a :: l) w =
  let (b, w1) := f a w in
  let (bs, w2) := mapM f l w1 in (b :: bs, w2).
Proof.
  cbn [mapM]; unfold bind, ret.
  destruct (f a w) as [b w1]. destruct (mapM f l w1); reflexivity.
Qed.

Lemma update_one_eq (i : string) (u : PartialTask) (t : Task) (w : World) :
  update_one i u t w =
  if String.eqb (id t) i
  then (spread t u (JS.toISOString (clock w (ticks w))), tick w)
  else (t, w).
Proof.
  unfold update_one. destruct (String.eqb (id t) i); reflexivity.
Qed.

Section UpdateWalk.

Variable i : string.
Variable updates : PartialTask.

(** Mapping [update_one] touches nothing but the count of clock reads,
    which only grows. *)
Lemma mapM_update_one_frame (ts : list Task) (w : World) :
  let w' := snd (mapM (update_one i updates) ts w) in
  state w' = state w /\ clock w' = clock w /\ (ticks w <= ticks w')%nat /\
  random w' = random w /\ draws w' = draws w /\
  darkClass w' = darkClass w.
Proof.
  revert w; induction ts as [|t ts IH]; intro w.
  - cbn; repeat split; auto.
  - rewrite mapM_cons, update_one_eq.
    destruct (String.eqb (id t) i).
    + specialize (IH (tick w)).
      destruct (mapM (update_one i updates) ts (tick w)) as [bs w2].
      cbn in *. destruct IH as (? & ? & ? & ? & ? & ?).
      repeat split; auto; lia.
    + specialize (IH w).
      destruct (mapM (update_one i updates) ts w) as [bs w2].
      exact IH.
Qed.

Lemma updated_from_later (w w1 : World) (t t' : Task) :
  clock w1 = clock w -> (ticks w <= ticks w1)%nat ->
  updated_from i updates w1 t t' -> updated_from i updates w t t'.
Proof.
  intros Hc Ht [Hne Heq]; split; [exact Hne|].
  intro E; destruct (Heq E) as (k & Hk & ->).
  exists k; split; [lia | now rewrite Hc].
Qed.

Lemma mapM_update_one_pointwise (ts : list Task) (w : World) :
  Forall2 (updated_from i updates w) ts (fst (mapM (update_one i updates) ts w)).
Proof.
  revert w; induction ts as [|t ts IH]; intro w.
  - constructor.
  - rewrite mapM_cons, update_one_eq.
    destruct (String.eqb (id t) i) eqn:E.
    + apply String.eqb_eq in E.
      specialize (IH (tick w)).
      destruct (mapM (update_one i updates) ts (tick w)) as [bs w2].
      cbn [fst] in *. constructor.
      * split; [congruence|]. intros _. exists (ticks w); split; auto.
      * eapply Forall2_impl; [|exact IH].
        intros a b Hab.
        apply (updated_from_later w (tick w)); [reflexivity | cbn; lia | exact Hab].
    + apply String.eqb_neq in E.
      specialize (IH w).
      destruct (mapM (update_one i updates) ts w) as [bs w2].
      cbn [fst] in *. constructor; [|exact IH].
      split; [reflexivity|congruence].
Qed.

(** When no task has the id [i] the walk returns the list and the world
    it was given. *)
Lemma mapM_update_one_absent (ts : list Task) (w : World) :
  ~ In i (map id ts) -> mapM (update_one i updates) ts w = (ts, w).
Proof.
  induction ts as [|t ts IH]; intro H; [reflexivity|].
  rewrite mapM_cons, update_one_eq.
  destruct (String.eqb (id t) i) eqn:E.
  - apply String.eqb_eq in E. cbn in H. tauto.
  - rewrite IH; [reflexivity|]. cbn in H. tauto.
Qed.

(** The ids after the walk. *)
Lemma mapM_update_one_ids (ts : list Task) (w : World) :
  map id (fst (mapM (update_one i updates) ts w)) =
  map (fun j => if String.eqb j i then or_else (upd_id updates) j else j)
      (map id ts).
Proof.
  revert w; induction ts as [|t ts IH]; intro w; [reflexivity|].
  rewrite mapM_cons, update_one_eq.
  destruct (String.eqb (id t) i) eqn:E.
  - specialize (IH (tick w)).
    destruct (mapM (update_one i updates) ts (tick w)) as [bs w2].
    cbn [fst map] in *. rewrite IH, E. reflexivity.
  - specialize (IH w).
    destruct (mapM (update_one i updates) ts w) as [bs w2].
    cbn [fst map] in *. rewrite IH, E. reflexivity.
Qed.

End UpdateWalk.

(** The state [updateTask] leaves holds the walked list. *)
Lemma updateTask_tasks (i : string) (u : PartialTask) (w : World) :
  tasks (state (exec (updateTask i u) w)) =
  fst (mapM (update_one i u) (tasks (state w)) w).
Proof.
  unfold exec, updateTask, set, bind, get, ret, put.
  destruct (mapM (update_one i u) (tasks (state w)) w) as [ts w']; reflexivity.
Qed.

(** Two walks that agree on every task agree on every list. *)
Lemma mapM_ext {A B : Type} (f g : A -> M B) (l : list A) (w : World) :
  (forall a w', f a w' = g a w') -> mapM f l w = mapM g l w.
Proof.
  intro H; revert w; induction l as [|a l IH]; intro w; [reflexivity|].
  rewrite !mapM_cons, H. destruct (g a w) as [b w1]. now rewrite IH.
Qed.

(** *** [updateTask]: what is kept and what is refreshed *)

(** Position by position, what the walk of [updateTask] makes of each
    task, with the clock reading it takes for it. *)
Lemma mapM_update_one_during (i : string) (u : PartialTask)
    (ts : list Task) (w : World) :
  Forall2 (updated_during i u w
             (ticks (snd (mapM (update_one i u) ts w))))
          ts (fst (mapM (update_one i u) ts w)).
Proof.
  revert w; induction ts as [|t ts IH]; intro w.
  - constructor.
  - rewrite mapM_cons, update_one_eq.
    destruct (String.eqb (id t) i) eqn:E.
    + apply String.eqb_eq in E.
      specialize (IH (tick w)).
      pose proof (mapM_update_one_frame i u ts (tick w)) as F.
      destruct (mapM (update_one i u) ts (tick w)) as [bs w2].
      cbn [fst snd tick ticks clock] in *.
      destruct F as (_ & _ & Ft & _). constructor.
      * split; [congruence|]. intros _. exists (ticks w).
        split; [lia | reflexivity].
      * eapply Forall2_impl; [|exact IH].
        intros a b [Hne Heq]. split; [exact Hne|].
        intro Ea. destruct (Heq Ea) as (k & Hk & ->).
        cbn [tick ticks] in Hk.
        exists k. split; [lia | reflexivity].
    + apply String.eqb_neq in E.
      specialize (IH w).
      destruct (mapM (update_one i u) ts w) as [bs w2].
      cbn [fst snd] in *. constructor; [|exact IH].
      split; [reflexivity | congruence].
Qed.

Lemma updateTask_ticks (i : string) (u : PartialTask) (w : World) :
  ticks (exec (updateTask i u) w)
  = ticks (snd (mapM (update_one i u) (tasks (state w)) w)).
Proof.
  unfold exec, updateTask, set, bind, get, ret, put.
  destruct (mapM (update_one i u) (tasks (state w)) w) as [ts w'];
    reflexivity.
Qed.

(** C1, as amended.  [updateTask i updates] relates the former list to the
    new one position by position.  Every task whose id differs from [i] is
    unchanged.  A task whose id is [i] keeps its id exactly when the
    updates carry no id or its own, and keeps its [createdAt] exactly when
    they carry none or its own.  Its [updatedAt] becomes the ISO string of
    a clock reading taken during the call; that string is not below the
    former [updatedAt] whenever the former is the ISO string of a time not
    later than the reading, both times having a year of four digits. *)
Theorem updateTask_keeps_identity (w : World) (i : string) (u : PartialTask) :
  Forall2 (keeps_identity i u w (exec (updateTask i u) w))
          (tasks (state w)) (tasks (state (exec (updateTask i u) w))).
Proof.
  rewrite updateTask_tasks.
  eapply Forall2_impl; [|apply mapM_update_one_during].
  intros t t' [Hne Heq]; split; [exact Hne|].
  intro E; destruct (Heq E) as (k & Hk & ->).
  unfold spread; cbn [id createdAt updatedAt].
  split; [|split].
  - destruct (upd_id u) as [j|]; cbn [or_else].
    + split; [intros ->; now right | intros [F|[= ->]]; congruence].
    + split; [now left | reflexivity].
  - destruct (upd_createdAt u) as [c|]; cbn [or_else].
    + split; [intros ->; now right | intros [F|[= ->]]; congruence].
    + split; [now left | reflexivity].
  - exists k. rewrite updateTask_ticks.
    split; [exact Hk|]. split; [reflexivity|].
    intros p -> Hp Hc Hle. now apply toISOString_mono.
Qed.

(** On two tasks stamped at 22:13:20.000, a change of title of the task
    "a" five seconds later: its id and [createdAt] are kept, and its
    [updatedAt], the ISO string of the clock reading 1700000005000, is not
    below the former one, the ISO string of 1700000000000. *)
Example title_change_five_seconds_later :
  map (fun t => (id t, title t, createdAt t, updatedAt t))
      (tasks (state (exec (updateTask "a" (Examples.title_only "Report"))
                          MoreExamples.two_tasks_later)))
  = [ ("a", "Report", "2023-11-14T22:13:20.000Z",
       "2023-11-14T22:13:25.000Z");
      ("b", "Write report", "2023-11-14T22:13:20.000Z",
       "2023-11-14T22:13:20.000Z") ] /\
  ticks MoreExamples.two_tasks_later = 0%nat /\
  ticks (exec (updateTask "a" (Examples.title_only "Report"))
              MoreExamples.two_tasks_later) = 1%nat /\
  clock MoreExamples.two_tasks_later 0 = 1700000005000 /\
  Calendar.four_digit_year 1700000000000 /\
  Calendar.four_digit_year 1700000005000 /\
  JS.toISOString 1700000000000 = "2023-11-14T22:13:20.000Z" /\
  JS.toISOString 1700000005000 = "2023-11-14T22:13:25.000Z" /\
  JS.str_le "2023-11-14T22:13:20.000Z" "2023-11-14T22:13:25.000Z" = true.
Proof.
  split; [vm_compute; reflexivity|].
  split; [reflexivity|]. split; [vm_compute; reflexivity|].
  split; [reflexivity|].
  split; [unfold Calendar.four_digit_year; lia|].
  split; [unfold Calendar.four_digit_year; lia|].
  repeat split; vm_compute; reflexivity.
Qed.

(** C1, as stated, fails: an update that carries an [id] changes the id of
    the matched task, one that carries a [createdAt] changes its
    [createdAt], and when the clock has been set back the new [updatedAt]
    is below the former one. *)
Lemma updateTask_changes_id_createdAt_and_lowers_updatedAt :
  map id (tasks (state Examples.one_task)) = ["a"] /\
  map id (tasks (state (exec (updateTask "a" (Examples.id_only "b"))
                             Examples.one_task)))
    = ["b"] /\
  map createdAt (tasks (state Examples.one_task))
    = ["2023-11-14T22:13:20.000Z"] /\
  map createdAt
      (tasks (state (exec (updateTask "a"
                             (Examples.createdAt_only
                                "1999-01-01T00:00:00.000Z"))
                          Examples.one_task)))
    = ["1999-01-01T00:00:00.000Z"] /\
  map updatedAt (tasks (state Examples.one_task_clock_back))
    = ["2023-11-14T22:13:20.000Z"] /\
  map updatedAt (tasks (state (exec (updateTask "a" no_updates)
                                    Examples.one_task_clock_back)))
    = ["2020-09-13T12:26:40.000Z"] /\
  JS.str_le "2023-11-14T22:13:20.000Z" "2020-09-13T12:26:40.000Z" = false.
Proof.
  repeat split; vm_compute; reflexivity.
Qed.

(** *** [moveTask] *)

(** The updates the hook builds and [{ status: s }] give the same task:
    [updateTask] writes [updatedAt] after spreading them. *)
Lemma spread_ignores_updatedAt (t : Task) (u u' : PartialTask) (now : string) :
  upd_id u = upd_id u' -> upd_title u = upd_title u' ->
  upd_description u = upd_description u' -> upd_status u = upd_status u' ->
  upd_priority u = upd_priority u' -> upd_category u = upd_category u' ->
  upd_dueDate u = upd_dueDate u' -> upd_tags u = upd_tags u' ->
  upd_assignee u = upd_assignee u' ->
  upd_estimatedHours u = upd_estimatedHours u' ->
  upd_createdAt u = upd_createdAt u' ->
  spread t u now = spread t u' now.
Proof.
  intros. unfold spread. congruence.
Qed.

(** The hook's [moveTask] reads the clock once, then is the store's
    [updateTask] with the status alone. *)
Lemma hook_moveTask_unfold (w : World) (i : string) (s : TaskStatus) :
  UseTasks.moveTask i s w = updateTask i (status_only s) (tick w).
Proof.
  unfold UseTasks.moveTask, new_Date_toISOString, Date_now, bind, ret.
  unfold updateTask, set, bind, get.
  cbn [state tick].
  erewrite mapM_ext; [reflexivity|].
  intros a w'. rewrite !update_one_eq.
  destruct (String.eqb (id a) i); [|reflexivity].
  apply f_equal2; [|reflexivity].
  apply spread_ignores_updatedAt; reflexivity.
Qed.

(** Two walks of [updateTask] over the same list, with updates that
    carry no id, started at different clock readings, give the same tasks,
    the [updatedAt] of the tasks with the id [i] apart. *)
Lemma mapM_update_one_same_but_stamps (i : string) (u : PartialTask)
    (ts : list Task) (w1 w2 : World) :
  upd_id u = None ->
  same_but_stamps_of i
    (fst (mapM (update_one i u) ts w1))
    (fst (mapM (update_one i u) ts w2)).
Proof.
  intro Hu. unfold same_but_stamps_of.
  revert w1 w2; induction ts as [|t ts IH]; intros w1 w2.
  - constructor.
  - rewrite !mapM_cons, !update_one_eq.
    destruct (String.eqb (id t) i) eqn:E.
    + apply String.eqb_eq in E.
      specialize (IH (tick w1) (tick w2)).
      destruct (mapM (update_one i u) ts (tick w1)) as [bs1 w1'].
      destruct (mapM (update_one i u) ts (tick w2)) as [bs2 w2'].
      cbn [fst] in *. constructor; [|exact IH].
      split.
      * unfold same_but_updatedAt, spread; cbn. repeat split.
      * unfold spread; cbn [id]. rewrite Hu; cbn [or_else]. congruence.
    + specialize (IH w1 w2).
      destruct (mapM (update_one i u) ts w1) as [bs1 w1'].
      destruct (mapM (update_one i u) ts w2) as [bs2 w2'].
      cbn [fst] in *. constructor; [|exact IH].
      split; [unfold same_but_updatedAt; repeat split | reflexivity].
Qed.

(** What [updateTask] leaves of the state when no task has the id. *)
Lemma updateTask_absent_state (i : string) (u : PartialTask) (w : World) :
  ~ In i (ids (state w)) -> state (exec (updateTask i u) w) = state w.
Proof.
  intro H. unfold exec, updateTask, set, bind, get, ret, put.
  rewrite mapM_update_one_absent by exact H.
  destruct w as [[ts us th f so lo] c n r d dk]; reflexivity.
Qed.

(** C4, as amended.  The store's [moveTask i s] is
    [updateTask i { status: s }]: same result, same world.  The hook's
    [moveTask] first reads the clock, to build an [updatedAt] that
    [updateTask] then overwrites: it is [updateTask i { status: s }]
    started one clock read later.  Started in the same world, the hook's
    [moveTask] and [updateTask i { status: s }] leave the same user, theme,
    filters, sort option and loading flag, and task lists that agree
    position by position: the same task where the id is not [i], and the
    same fields, [updatedAt] apart, where it is.  When no task has the id
    [i], they leave the same state. *)
Theorem moveTask_is_updateTask (w : World) (i : string) (s : TaskStatus) :
  Store.moveTask i s w = updateTask i (status_only s) w /\
  UseTasks.moveTask i s w = updateTask i (status_only s) (tick w) /\
  UseTasks.moveTask i s w = Store.moveTask i s (tick w) /\
  same_but_stamps_of i
    (tasks (state (exec (UseTasks.moveTask i s) w)))
    (tasks (state (exec (updateTask i (status_only s)) w))) /\
  user (state (exec (UseTasks.moveTask i s) w))
    = user (state (exec (updateTask i (status_only s)) w)) /\
  theme (state (exec (UseTasks.moveTask i s) w))
    = theme (state (exec (updateTask i (status_only s)) w)) /\
  filters (state (exec (UseTasks.moveTask i s) w))
    = filters (state (exec (updateTask i (status_only s)) w)) /\
  sortBy (state (exec (UseTasks.moveTask i s) w))
    = sortBy (state (exec (updateTask i (status_only s)) w)) /\
  isLoading (state (exec (UseTasks.moveTask i s) w))
    = isLoading (state (exec (updateTask i (status_only s)) w)) /\
  (~ In i (ids (state w)) ->
   state (exec (UseTasks.moveTask i s) w)
   = state (exec (updateTask i (status_only s)) w)).
Proof.
  split; [reflexivity|]. split; [apply hook_moveTask_unfold|].
  split; [apply hook_moveTask_unfold|].
  assert (E : exec (UseTasks.moveTask i s) w
              = exec (updateTask i (status_only s)) (tick w)).
  { unfold exec. now rewrite hook_moveTask_unfold. }
  rewrite E. split; [|split; [|split; [|split; [|split; [|split]]]]].
  - rewrite !updateTask_tasks.
    now apply mapM_update_one_same_but_stamps.
  - unfold exec, updateTask, set, bind, get, ret, put. cbn [state tick].
    destruct (mapM (update_one i (status_only s)) (tasks (state w)) (tick w)).
    destruct (mapM (update_one i (status_only s)) (tasks (state w)) w).
    reflexivity.
  - unfold exec, updateTask, set, bind, get, ret, put. cbn [state tick].
    destruct (mapM (update_one i (status_only s)) (tasks (state w)) (tick w)).
    destruct (mapM (update_one i (status_only s)) (tasks (state w)) w).
    reflexivity.
  - unfold exec, updateTask, set, bind, get, ret, put. cbn [state tick].
    destruct (mapM (update_one i (status_only s)) (tasks (state w)) (tick w)).
    destruct (mapM (update_one i (status_only s)) (tasks (state w)) w).
    reflexivity.
  - unfold exec, updateTask, set, bind, get, ret, put. cbn [state tick].
    destruct (mapM (update_one i (status_only s)) (tasks (state w)) (tick w)).
    destruct (mapM (update_one i (status_only s)) (tasks (state w)) w).
    reflexivity.
  - unfold exec, updateTask, set, bind, get, ret, put. cbn [state tick].
    destruct (mapM (update_one i (status_only s)) (tasks (state w)) (tick w)).
    destruct (mapM (update_one i (status_only s)) (tasks (state w)) w).
    reflexivity.
  - intro H. rewrite (updateTask_absent_state i _ w H).
    now rewrite (updateTask_absent_state i _ (tick w) H).
Qed.

(** C4, as stated, fails for the hook: started in the same world, on the
    tasks "a" and "b" under a clock that shows the next millisecond at
    every read, the hook's [moveTask] stamps the task "a" with the second
    reading and [updateTask] with the first, so the two resulting states
    differ. *)
Lemma hook_moveTask_stamps_with_a_later_reading :
  map updatedAt
      (tasks (state (exec (UseTasks.moveTask "a" done) Examples.two_tasks)))
    = ["2023-11-14T22:13:20.001Z"; "2023-11-14T22:13:20.000Z"] /\
  map updatedAt
      (tasks (state (exec (updateTask "a" (status_only done))
                          Examples.two_tasks)))
    = ["2023-11-14T22:13:20.000Z"; "2023-11-14T22:13:20.000Z"] /\
  state (exec (UseTasks.moveTask "a" done) Examples.two_tasks)
    <> state (exec (updateTask "a" (status_only done)) Examples.two_tasks).
Proof.
  assert (A : map updatedAt
      (tasks (state (exec (UseTasks.moveTask "a" done) Examples.two_tasks)))
    = ["2023-11-14T22:13:20.001Z"; "2023-11-14T22:13:20.000Z"])
    by (vm_compute; reflexivity).
  assert (B : map updatedAt
      (tasks (state (exec (updateTask "a" (status_only done))
                          Examples.two_tasks)))
    = ["2023-11-14T22:13:20.000Z"; "2023-11-14T22:13:20.000Z"])
    by (vm_compute; reflexivity).
  split; [exact A|]. split; [exact B|].
  intro E. rewrite E, B in A. discriminate A.
Qed.

(** *** Operations on an id that no task has *)

Lemma filter_absent (i : string) (ts : list Task) :
  ~ In i (map id ts) ->
  filter (fun task => negb (String.eqb (id task) i)) ts = ts.
Proof.
  induction ts as [|t ts IH]; cbn; intro H; [reflexivity|].
  destruct (String.eqb (id t) i) eqn:E; cbn.
  - apply String.eqb_eq in E; tauto.
  - rewrite IH by tauto; reflexivity.
Qed.

(** Storing the list a state already holds gives that state back. *)
Lemma put_same_tasks (w : World) :
  put (assign (state w)
         {| patch_tasks := Some (tasks (state w)); patch_user := None;
            patch_theme := None; patch_filters := None;
            patch_sortBy := None; patch_isLoading := None |}) w = (tt, w).
Proof.
  destruct w as [[ts u th f so lo] c n r d dk]; reflexivity.
Qed.

(** C5.  When no task of the list has the id [i], [updateTask i updates]
    and [deleteTask i] both return normally and leave the world as it was:
    same task list (hence same length, same tasks, same order), and the
    rest of the state untouched as well. *)
Theorem absent_id_is_noop (w : World) (i : string) (u : PartialTask) :
  ~ In i (ids (state w)) ->
  updateTask i u w = (tt, w) /\ deleteTask i w = (tt, w) /\
  tasks (state (exec (updateTask i u) w)) = tasks (state w) /\
  tasks (state (exec (deleteTask i) w)) = tasks (state w).
Proof.
  intro H. unfold ids in H.
  assert (Hu : updateTask i u w = (tt, w)).
  { unfold updateTask, set, bind, get, ret.
    rewrite mapM_update_one_absent by exact H. apply put_same_tasks. }
  assert (Hd : deleteTask i w = (tt, w)).
  { unfold deleteTask, set, bind, get, ret.
    rewrite filter_absent by exact H. apply put_same_tasks. }
  unfold exec. rewrite Hu, Hd. auto.
Qed.

Lemma absent_id_is_noop_witness :
  updateTask "zzz" (Examples.title_only "Report") Examples.two_tasks
    = (tt, Examples.two_tasks) /\
  deleteTask "zzz" Examples.two_tasks = (tt, Examples.two_tasks) /\
  tasks (state (exec (updateTask "zzz" (Examples.title_only "Report"))
                     Examples.two_tasks))
    = tasks (state Examples.two_tasks) /\
  tasks (state (exec (deleteTask "zzz") Examples.two_tasks))
    = tasks (state Examples.two_tasks).
Proof.
  apply (absent_id_is_noop Examples.two_tasks "zzz"
           (Examples.title_only "Report")).
  cbn. intros [E|[E|[]]]; discriminate E.
Defined.

(** *** [logout] *)

(** C6.  Whatever the state before, after [logout] the task list is empty
    and there is no user. *)
Theorem logout_clears_tasks_and_user (w : World) :
  tasks (state (exec logout w)) = [] /\ user (state (exec logout w)) = None.
Proof.
  split; reflexivity.
Qed.

(** C10.  [logout] leaves the theme, the filters, the sort option and the
    loading flag as they were. *)
Theorem logout_keeps_other_fields (w : World) :
  theme (state (exec logout w)) = theme (state w) /\
  filters (state (exec logout w)) = filters (state w) /\
  sortBy (state (exec logout w)) = sortBy (state w) /\
  isLoading (state (exec logout w)) = isLoading (state w).
Proof.
  repeat split; reflexivity.
Qed.

(** *** Distinct ids *)

Lemma mem_In (i : string) (l : list string) : mem i l = true <-> In i l.
Proof.
  unfold mem. rewrite existsb_exists. split.
  - intros (x & Hx & E). apply String.eqb_eq in E. now subst.
  - intro H. exists i. split; [exact H | apply String.eqb_refl].
Qed.

Lemma mem_false (i : string) (l : list string) :
  mem i l = false <-> ~ In i l.
Proof.
  rewrite <- mem_In. destruct (mem i l); split; congruence.
Qed.

Lemma distinct_NoDup (l : list string) : distinct l = true -> NoDup l.
Proof.
  induction l as [|i l IH]; cbn; intro H; [constructor|].
  apply andb_true_iff in H as [Hi Hl].
  apply negb_true_iff, mem_false in Hi.
  constructor; auto.
Qed.

(** Renaming [i] into [j] in a list without repetition. *)
Section Rename.

Variables i j : string.

Lemma rename_absent (l : list string) : ~ In i l -> map (rename i j) l = l.
Proof.
  induction l as [|x l IH]; cbn; intro H; [reflexivity|].
  unfold rename at 1. destruct (String.eqb x i) eqn:E.
  - apply String.eqb_eq in E. tauto.
  - rewrite IH by tauto. reflexivity.
Qed.

Lemma rename_In (x : string) (l : list string) :
  In x (map (rename i j) l) -> In x l \/ x = j.
Proof.
  rewrite in_map_iff. intros (y & <- & Hy). unfold rename.
  destruct (String.eqb y i); auto.
Qed.

Lemma rename_NoDup (l : list string) :
  NoDup l -> ~ In j l -> NoDup (map (rename i j) l).
Proof.
  induction 1 as [|x l Hx Hl IH]; cbn; intro Hj; [constructor|].
  unfold rename at 1. destruct (String.eqb x i) eqn:E.
  - apply String.eqb_eq in E. subst x.
    rewrite rename_absent by exact Hx. constructor; tauto.
  - constructor; [|tauto].
    intro Hin. apply rename_In in Hin as [Hin| ->]; tauto.
Qed.

End Rename.

Lemma rename_same (i : string) (l : list string) : map (rename i i) l = l.
Proof.
  induction l as [|x l IH]; cbn; [reflexivity|].
  unfold rename at 1. destruct (String.eqb x i) eqn:E.
  - apply String.eqb_eq in E. now rewrite IH, E.
  - now rewrite IH.
Qed.

Lemma filter_ids_NoDup (p : Task -> bool) (ts : list Task) :
  NoDup (map id ts) -> NoDup (map id (filter p ts)).
Proof.
  induction ts as [|t ts IH]; cbn; intro H; [constructor|].
  inversion H as [|x l Hx Hl]; subst.
  destruct (p t); cbn; auto.
  constructor; auto.
  intro Hin. apply Hx.
  apply in_map_iff in Hin as (t' & E & Ht').
  apply filter_In in Ht' as [Ht' _].
  apply in_map_iff. now exists t'.
Qed.

(** The ids an [updateTask] leaves. *)
Lemma updateTask_ids (i : string) (u : PartialTask) (w : World) :
  ids (state (exec (updateTask i u) w)) =
  match upd_id u with
  | None => ids (state w)
  | Some j => map (rename i j) (ids (state w))
  end.
Proof.
  unfold ids. rewrite updateTask_tasks, mapM_update_one_ids.
  destruct (upd_id u) as [j|]; cbn [or_else].
  - reflexivity.
  - induction (map id (tasks (state w))) as [|x l IH]; cbn; [reflexivity|].
    rewrite IH. now destruct (String.eqb x i).
Qed.

Lemma addTask_ids (d : TaskData) (w : World) :
  ids (state (exec (addTask d) w)) = id_at w 0 0 :: ids (state w).
Proof.
  reflexivity.
Qed.

Lemma initializeDemo_ids (w : World) :
  ids (state (exec initializeDemo w)) =
  [id_at w 0 0; id_at w 4 1; id_at w 8 2].
Proof.
  reflexivity.
Qed.

(** One operation that keeps ids apart preserves their distinctness. *)
Lemma perform_keeps_ids_distinct (a : Action) (w : World) :
  NoDup (ids (state w)) -> keeps_ids_apart a w = true ->
  NoDup (ids (state (exec (perform a) w))).
Proof.
  intros Hnd Hok. destruct a; cbn [perform keeps_ids_apart] in *.
  - rewrite addTask_ids. apply negb_true_iff, mem_false in Hok.
    constructor; assumption.
  - rewrite updateTask_ids. destruct (upd_id updates) as [j|]; [|exact Hnd].
    apply orb_true_iff in Hok as [E|Hj].
    + apply String.eqb_eq in E. subst j. now rewrite rename_same.
    + apply negb_true_iff, mem_false in Hj. now apply rename_NoDup.
  - unfold ids, exec, deleteTask, set, bind, get, ret, put; cbn.
    now apply filter_ids_NoDup.
  - unfold Store.moveTask. rewrite updateTask_ids. exact Hnd.
  - unfold exec at 1. rewrite hook_moveTask_unfold.
    fold (exec (updateTask i (status_only newStatus)) (tick w)).
    rewrite updateTask_ids. exact Hnd.
  - exact Hnd.
  - constructor.
  - exact Hnd.
  - exact Hnd.
  - exact Hnd.
  - exact Hnd.
  - exact Hnd.
  - rewrite initializeDemo_ids. now apply distinct_NoDup.
Qed.

Lemma exec_perform_all_cons (a : Action) (l : list Action) (w : World) :
  exec (perform_all (a :: l)) w = exec (perform_all l) (exec (perform a) w).
Proof.
  unfold exec; cbn [perform_all]; unfold bind.
  destruct (perform a w) as [[] w1]; reflexivity.
Qed.

Lemma perform_all_keeps_ids_distinct (l : list Action) (w : World) :
  NoDup (ids (state w)) -> all_keep_ids_apart l w = true ->
  NoDup (ids (state (exec (perform_all l) w))).
Proof.
  revert w; induction l as [|a l IH]; intros w Hnd Hok.
  - exact Hnd.
  - cbn [all_keep_ids_apart] in Hok. apply andb_true_iff in Hok as [Ha Hl].
    rewrite exec_perform_all_cons. apply IH; [|exact Hl].
    now apply perform_keeps_ids_distinct.
Qed.

(** C2, as stated, fails: two tasks are added, then the first is given the
    id of the second through [updateTask]; the store then holds two tasks
    with the same id. *)
Lemma ids_not_always_distinct :
  state Examples.fresh = initial /\
  ids (state (exec (perform_all Examples.clashing_session)
                   Examples.fresh))
    = ["1700000000003-k3j9x0qpl"; "1700000000003-k3j9x0qpl"] /\
  ~ NoDup (ids (state (exec (perform_all Examples.clashing_session)
                            Examples.fresh))).
Proof.
  split; [reflexivity|]. split; [vm_compute; reflexivity|].
  intro H.
  assert (E : ids (state (exec (perform_all Examples.clashing_session)
                   Examples.fresh))
    = ["1700000000003-k3j9x0qpl"; "1700000000003-k3j9x0qpl"])
    by (vm_compute; reflexivity).
  rewrite E in H. inversion H as [|x l Hx Hl]; subst.
  apply Hx. left. reflexivity.
Qed.

(** *** [addTask] *)

(** What [addTask] does: the new task is put in front of the list, which is
    otherwise kept; its id is the one [generateId] draws, and its two
    timestamps are the ISO strings of the next two clock readings. *)
Lemma addTask_prepends (d : TaskData) (w : World) :
  exists t,
    tasks (state (exec (addTask d) w)) = t :: tasks (state w) /\
    id t = id_at w 0 0 /\
    createdAt t = JS.toISOString (clock w (1 + ticks w)) /\
    updatedAt t = JS.toISOString (clock w (2 + ticks w)).
Proof.
  eexists. repeat split.
Qed.

(** C3, at two inputs where the code departs from it.  First: the clock
    moves to the next millisecond between the two [new Date()] of
    [addTask], and the new task gets a [createdAt] that differs from its
    [updatedAt].  Second: [generateId] draws an id that a task of the list
    already has, and the new task gets that same id. *)
Theorem addTask_splits_timestamps_and_repeats_id :
  map (fun t => (createdAt t, updatedAt t))
      (tasks (state (exec (addTask Examples.someData)
                          Examples.fresh_ticking)))
    = [("2023-11-14T22:13:20.000Z", "2023-11-14T22:13:20.001Z")] /\
  ids (Examples.with_tasks [Examples.stored_task])
    = ["1700000000000-4fzyo82mv"] /\
  ids (state (exec (addTask Examples.someData)
                   Examples.holding_stored_task))
    = ["1700000000000-4fzyo82mv"; "1700000000000-4fzyo82mv"].
Proof.
  repeat split; vm_compute; reflexivity.
Qed.

(** *** [getDueDateStatus] *)

(** C7.  Whatever the runtime's dates are, when the difference in days
    between the due date and now is the integer [d]: a negative [d] gives
    [overdue] and the text "Overdue by N days" with N the absolute value of
    [d]; [d = 0] gives [due_soon] and "Due today"; [d] from 1 to 3 gives
    [due_soon]; [d] of 4 or more gives [upcoming]. *)
Theorem getDueDateStatus_thresholds
    (Date : Type) (new_Date : string -> Date)
    (differenceInDays : Date -> Date -> JS.jsnum) (now : Date)
    (dueDate : string) (d : Z) :
  differenceInDays (new_Date dueDate) now = JS.Num d ->
  DateHelpers.getDaysUntil Date new_Date differenceInDays now dueDate
    = JS.Num d /\
  (d < 0 ->
   DateHelpers.due_status
     (DateHelpers.getDueDateStatus Date new_Date differenceInDays now dueDate)
     = DateHelpers.overdue /\
   DateHelpers.text
     (DateHelpers.getDueDateStatus Date new_Date differenceInDays now dueDate)
     = "Overdue by " ++ JS.toString (Z.abs d) ++ " days") /\
  (d = 0 ->
   DateHelpers.due_status
     (DateHelpers.getDueDateStatus Date new_Date differenceInDays now dueDate)
     = DateHelpers.due_soon /\
   DateHelpers.text
     (DateHelpers.getDueDateStatus Date new_Date differenceInDays now dueDate)
     = "Due today") /\
  (1 <= d <= 3 ->
   DateHelpers.due_status
     (DateHelpers.getDueDateStatus Date new_Date differenceInDays now dueDate)
     = DateHelpers.due_soon) /\
  (4 <= d ->
   DateHelpers.due_status
     (DateHelpers.getDueDateStatus Date new_Date differenceInDays now dueDate)
     = DateHelpers.upcoming).
Proof.
  intro E.
  assert (G : DateHelpers.getDaysUntil Date new_Date differenceInDays now
                dueDate = JS.Num d) by exact E.
  split; [exact G|].
  unfold DateHelpers.getDueDateStatus. rewrite G.
  unfold JS.lt, JS.strict_eq, JS.le, JS.Math_abs, JS.interpolate.
  repeat split; intros;
    destruct (Z.ltb_spec d 0); destruct (Z.eqb_spec d 0);
    destruct (Z.leb_spec d 3); try lia; reflexivity.
Qed.

Lemma getDueDateStatus_thresholds_witness :
  DateHelpers.due_status
    (DateHelpers.getDueDateStatus Z MoreExamples.days_in_text
       Examples.wholeDays 604800000 "2") = DateHelpers.overdue /\
  DateHelpers.text
    (DateHelpers.getDueDateStatus Z MoreExamples.days_in_text
       Examples.wholeDays 604800000 "2")
  = "Overdue by " ++ JS.toString (Z.abs (-5)) ++ " days".
Proof.
  apply (getDueDateStatus_thresholds Z MoreExamples.days_in_text
           Examples.wholeDays 604800000 "2" (-5)).
  - reflexivity.
  - lia.
Defined.

(** The same parser and the same day: a due date six days after the epoch
    is one day before now, a due date two days after it five days. *)
Example getDueDateStatus_follows_the_due_date :
  DateHelpers.text
    (DateHelpers.getDueDateStatus Z MoreExamples.days_in_text
       Examples.wholeDays 604800000 "6") = "Overdue by 1 days" /\
  DateHelpers.text
    (DateHelpers.getDueDateStatus Z MoreExamples.days_in_text
       Examples.wholeDays 604800000 "2") = "Overdue by 5 days".
Proof.
  split; reflexivity.
Qed.

(** *** The persisted object *)

(** The object [partialize] returns: three of the six data fields of
    the state, with the values the state has for them. *)
Lemma partialize_of_snapshot (s : AppState) :
  Persist.snapshot s
    = (partialize s ++
       [ ("filters", FFilters (filters s));
         ("sortBy", FSortBy (sortBy s));
         ("isLoading", FIsLoading (isLoading s)) ])%list /\
  keys (partialize s) = ["tasks"; "user"; "theme"] /\
  field "tasks" (partialize s) = Some (FTasks (tasks s)) /\
  field "user" (partialize s) = Some (FUser (user s)) /\
  field "theme" (partialize s) = Some (FTheme (theme s)) /\
  field "filters" (partialize s) = None /\
  field "sortBy" (partialize s) = None /\
  field "isLoading" (partialize s) = None.
Proof.
  repeat split; reflexivity.
Qed.






(** After a session that uses every kind of operation, started with
    nothing stored, the slot holds the three demo tasks, no user and the
    light theme; no other slot holds anything. *)
Example busy_session_persisted :
  option_map (Persist.item_field "state")
    (Persist.localStorage
       (Persist.dispatch_all Examples.busy_session
                             MoreExamples.nothing_stored)
       "taskflow-storage")
  = Some (Some (Persist.SObject
       [ ("tasks",
          FTasks (tasks (state (exec (perform_all Examples.busy_session)
                                     Examples.fresh))));
         ("user", FUser None);
         ("theme", FTheme light) ])) /\
  map id (tasks (state (exec (perform_all Examples.busy_session)
                             Examples.fresh)))
  = [ "1700000000011-k3j9x0qpl"; "1700000000015-k3j9x0qpl";
      "1700000000019-k3j9x0qpl" ] /\
  Persist.localStorage
    (Persist.dispatch_all Examples.busy_session MoreExamples.nothing_stored)
    "theme" = None.
Proof.
  split; [vm_compute; reflexivity|].
  split; vm_compute; reflexivity.
Qed.

(** *** [truncate] *)

Lemma substring_prefix (n : nat) (s : string) :
  (n <= String.length s)%nat ->
  exists rest, s = String.substring 0 n s ++ rest /\
               String.length (String.substring 0 n s) = n.
Proof.
  revert n; induction s as [|c s IH]; intros [|n] H; cbn in *.
  - exists ""; auto.
  - lia.
  - exists (String c s); auto.
  - destruct (IH n) as (rest & E & L); [lia|].
    exists rest. split; [now rewrite <- E | now rewrite L].
Qed.

(** C9.  For a natural number [maxLength]: a text of at most [maxLength]
    characters is returned as it is; a longer one is cut to its first
    [maxLength] characters, followed by "...".  The two examples of the
    specification evaluate as it says. *)
Theorem truncate_spec (text : string) (maxLength : Z) :
  0 <= maxLength ->
  (JS.length text <= maxLength -> Helpers.truncate text maxLength = text) /\
  (maxLength < JS.length text ->
   exists first rest,
     text = first ++ rest /\ JS.length first = maxLength /\
     Helpers.truncate text maxLength = first ++ "...") /\
  Helpers.truncate "This is a very long text" 10 = "This is a ..." /\
  Helpers.truncate "short" 10 = "short".
Proof.
  intro Hpos. unfold Helpers.truncate. repeat split.
  - intro H. destruct (Z.leb_spec (JS.length text) maxLength); [reflexivity|lia].
  - intro H. destruct (Z.leb_spec (JS.length text) maxLength); [lia|].
    unfold JS.substring, JS.clamp, JS.length in *.
    rewrite !Z.max_l by lia.
    rewrite (Z.min_l 0) by lia. rewrite (Z.min_l maxLength) by lia.
    rewrite (Z.min_l 0) by lia. rewrite (Z.max_r 0) by lia.
    rewrite Z.sub_0_r. cbn [Z.to_nat].
    destruct (substring_prefix (Z.to_nat maxLength) text) as (rest & E & L);
      [lia|].
    exists (String.substring 0 (Z.to_nat maxLength) text), rest.
    split; [exact E|]. split; [lia | reflexivity].
Qed.

Lemma truncate_spec_witness :
  (exists first rest,
     "Design Main Interface" = first ++ rest /\ JS.length first = 6 /\
     Helpers.truncate "Design Main Interface" 6 = first ++ "...") /\
  Helpers.truncate "Design" 6 = "Design".
Proof.
  split.
  - apply (truncate_spec "Design Main Interface" 6); [lia | reflexivity].
  - apply (truncate_spec "Design" 6); [lia | reflexivity].
Defined.

(* ================================================================== *)
(** ** Further properties of the store *)
(* ================================================================== *)

Import MoreSpec.

(** *** [deleteTask] *)

Lemma deleteTask_tasks (i : string) (w : World) :
  tasks (state (exec (deleteTask i) w)) =
  filter (fun task => negb (String.eqb (id task) i)) (tasks (state w)).
Proof.
  reflexivity.
Qed.

(** X1.  After [deleteTask i] no task has the id [i]; the tasks left are
    exactly the former tasks with another id; and deleting [i] once more
    changes nothing. *)
Theorem deleteTask_removes_id (w : World) (i : string) :
  ~ In i (ids (state (exec (deleteTask i) w))) /\
  (forall t, In t (tasks (state (exec (deleteTask i) w))) <->
             In t (tasks (state w)) /\ id t <> i) /\
  deleteTask i (exec (deleteTask i) w) = (tt, exec (deleteTask i) w).
Proof.
  assert (Hno : ~ In i (ids (state (exec (deleteTask i) w)))).
  { unfold ids. rewrite deleteTask_tasks. intro H.
    apply in_map_iff in H as (t & E & Ht).
    apply filter_In in Ht as [_ Ht].
    apply negb_true_iff, String.eqb_neq in Ht. contradiction. }
  split; [exact Hno|]. split.
  - intro t. rewrite deleteTask_tasks, filter_In.
    rewrite negb_true_iff, String.eqb_neq. reflexivity.
  - unfold deleteTask at 1, set, bind, get, ret.
    rewrite filter_absent by exact Hno. apply put_same_tasks.
Qed.

(** X2.  When the id [addTask] draws is not in the list, deleting that id
    right after gives the former list back. *)
Theorem addTask_then_deleteTask (w : World) (d : TaskData) :
  ~ In (id_at w 0 0) (ids (state w)) ->
  tasks (state (exec (deleteTask (id_at w 0 0)) (exec (addTask d) w)))
  = tasks (state w).
Proof.
  intro H. rewrite deleteTask_tasks.
  destruct (addTask_prepends d w) as (t & -> & E & _).
  cbn [filter]. rewrite E, String.eqb_refl. cbn [negb].
  apply filter_absent, H.
Qed.

Lemma addTask_then_deleteTask_witness :
  tasks (state (exec (deleteTask (id_at Examples.two_tasks 0 0))
                     (exec (addTask Examples.someData) Examples.two_tasks)))
  = tasks (state Examples.two_tasks).
Proof.
  apply (addTask_then_deleteTask Examples.two_tasks Examples.someData).
  vm_compute. intros [E|[E|[]]]; discriminate E.
Defined.

(** *** [updateTask] and [moveTask], field by field *)

Lemma spread_fields_applied (t : Task) (u : PartialTask) (now : string) :
  fields_applied u t (spread t u now).
Proof.
  unfold fields_applied, spread; cbn. repeat split.
Qed.

(** X3.  [updateTask i updates] keeps the number and the order of the
    tasks.  Position by position, a task with another id is unchanged, and
    in a task with the id [i] every field the updates carry, [updatedAt]
    apart, has the value they give, and every other field but [updatedAt]
    keeps its value. *)
Theorem updateTask_applies_updates (w : World) (i : string)
    (u : PartialTask) :
  List.length (tasks (state (exec (updateTask i u) w)))
    = List.length (tasks (state w)) /\
  Forall2 (applied_to i u)
          (tasks (state w)) (tasks (state (exec (updateTask i u) w))).
Proof.
  assert (H : Forall2 (applied_to i u) (tasks (state w))
                (tasks (state (exec (updateTask i u) w)))).
  { rewrite updateTask_tasks.
    eapply Forall2_impl; [|apply mapM_update_one_pointwise].
    intros t t' [Hne Heq]; split; [exact Hne|].
    intro E; destruct (Heq E) as (k & _ & ->).
    apply spread_fields_applied. }
  split; [|exact H]. symmetry. eapply Forall2_length, H.
Qed.

(** X4.  An [updatedAt] passed to [updateTask] has no effect: the call
    does what it does without it. *)
Theorem updateTask_ignores_updatedAt (w : World) (i : string)
    (u : PartialTask) :
  updateTask i u w = updateTask i (without_updatedAt u) w.
Proof.
  unfold updateTask, set, bind, get.
  erewrite mapM_ext; [reflexivity|].
  intros a w'. rewrite !update_one_eq.
  destruct (String.eqb (id a) i); reflexivity.
Qed.

(** X5.  Both [moveTask] operations, the store's and the hook's, keep the
    number and the order of the tasks, leave a task with another id
    unchanged, and in a task with the id [i] set the status and change no
    other field but [updatedAt]. *)
Theorem moveTask_sets_only_status (w : World) (i : string)
    (s : TaskStatus) :
  Forall2 (moved_to i s)
          (tasks (state w)) (tasks (state (exec (Store.moveTask i s) w))) /\
  Forall2 (moved_to i s)
          (tasks (state w)) (tasks (state (exec (UseTasks.moveTask i s) w))).
Proof.
  assert (H : forall w0,
    Forall2 (moved_to i s) (tasks (state w0))
            (tasks (state (exec (updateTask i (status_only s)) w0)))).
  { intro w0. rewrite updateTask_tasks.
    eapply Forall2_impl; [|apply mapM_update_one_pointwise].
    intros t t' [Hne Heq]; split; [exact Hne|].
    intro E; destruct (Heq E) as (k & _ & ->).
    cbn. repeat split. }
  split.
  - apply H.
  - unfold exec. rewrite hook_moveTask_unfold. apply (H (tick w)).
Qed.

(** *** The theme *)

(** X6.  After [setTheme t] the theme is [t], after [toggleTheme] it is
    the other one, and either way the root element carries the class
    [dark] exactly when the new theme is [dark].  Toggling twice gives the
    theme back. *)
Theorem theme_and_root_class_agree (w : World) (t : ThemeMode) :
  theme (state (exec (setTheme t) w)) = t /\
  darkClass (exec (setTheme t) w) = is_dark t /\
  theme (state (exec toggleTheme w))
    = match theme (state w) with light => dark | dark => light end /\
  darkClass (exec toggleTheme w)
    = is_dark (theme (state (exec toggleTheme w))) /\
  theme (state (exec toggleTheme (exec toggleTheme w))) = theme (state w) /\
  darkClass (exec toggleTheme (exec toggleTheme w)) = is_dark (theme (state w)).
Proof.
  destruct w as [[ts u th f so lo] c n r d dk].
  destruct th; repeat split; reflexivity.
Qed.

(** *** The filters *)

Lemma spread_filters_none (f : TaskFilters) : spread_filters f no_filters = f.
Proof.
  destruct f; reflexivity.
Qed.

Lemma spread_filters_assoc (f g h : TaskFilters) :
  spread_filters (spread_filters f g) h
  = spread_filters f (spread_filters g h).
Proof.
  destruct f as [a1 a2 a3 a4 a5], g as [b1 b2 b3 b4 b5],
           h as [c1 c2 c3 c4 c5]; unfold spread_filters; cbn.
  destruct c1, c2, c3, c4, c5; reflexivity.
Qed.

(** X7.  Two [setFilters] in a row are one [setFilters] with the second
    argument spread over the first; [setFilters({})] changes nothing; and
    after [clearFilters] then [setFilters f] the filters are [f]. *)
Theorem setFilters_compose (w : World) (f g : TaskFilters) :
  exec (setFilters g) (exec (setFilters f) w)
    = exec (setFilters (spread_filters f g)) w /\
  setFilters no_filters w = (tt, w) /\
  filters (state (exec (setFilters f) (exec clearFilters w))) = f.
Proof.
  destruct w as [[ts u th fl so lo] c n r d dk]. repeat split.
  - unfold exec, setFilters, set, bind, get, ret, put; cbn.
    now rewrite spread_filters_assoc.
  - unfold setFilters, set, bind, get, ret, put; cbn.
    now rewrite spread_filters_none.
  - unfold exec, setFilters, clearFilters, set, set_partial, bind, get, ret,
      put; cbn.
    destruct f as [f1 f2 f3 f4 f5]; destruct f1, f2, f3, f4, f5; reflexivity.
Qed.

(** *** What each operation leaves alone *)

Lemma updateTask_frame (i : string) (u : PartialTask) (w : World) :
  user (state (exec (updateTask i u) w)) = user (state w) /\
  theme (state (exec (updateTask i u) w)) = theme (state w) /\
  filters (state (exec (updateTask i u) w)) = filters (state w) /\
  sortBy (state (exec (updateTask i u) w)) = sortBy (state w) /\
  isLoading (state (exec (updateTask i u) w)) = isLoading (state w) /\
  darkClass (exec (updateTask i u) w) = darkClass w /\
  clock (exec (updateTask i u) w) = clock w /\
  (ticks w <= ticks (exec (updateTask i u) w))%nat /\
  random (exec (updateTask i u) w) = random w /\
  draws (exec (updateTask i u) w) = draws w.
Proof.
  unfold exec, updateTask, set, bind, get, ret, put.
  pose proof (mapM_update_one_frame i u (tasks (state w)) w) as H.
  destruct (mapM (update_one i u) (tasks (state w)) w) as [ts w'].
  cbn in *. destruct H as (_ & ? & ? & ? & ? & ?).
  repeat split; auto.
Qed.

(** X8.  An operation on the task list ([addTask], [updateTask],
    [deleteTask], both [moveTask], [initializeDemo]) leaves the user, the
    theme, the filters, the sort option, the loading flag and the class of
    the root element as they were. *)
Theorem task_operations_keep_the_rest (a : Action) (w : World) :
  on_tasks a = true ->
  user (state (exec (perform a) w)) = user (state w) /\
  theme (state (exec (perform a) w)) = theme (state w) /\
  filters (state (exec (perform a) w)) = filters (state w) /\
  sortBy (state (exec (perform a) w)) = sortBy (state w) /\
  isLoading (state (exec (perform a) w)) = isLoading (state w) /\
  darkClass (exec (perform a) w) = darkClass w.
Proof.
  intro H. destruct a; try discriminate H; cbn [perform].
  - repeat split.
  - pose proof (updateTask_frame i updates w). tauto.
  - repeat split.
  - pose proof (updateTask_frame i (status_only newStatus) w). tauto.
  - unfold exec. rewrite hook_moveTask_unfold.
    pose proof (updateTask_frame i (status_only newStatus) (tick w)) as F.
    unfold exec in F. cbn [tick state darkClass] in F. tauto.
  - repeat split.
Qed.

Lemma task_operations_keep_the_rest_witness :
  user (state (exec (perform Session.InitializeDemo) Examples.two_tasks))
    = user (state Examples.two_tasks) /\
  theme (state (exec (perform Session.InitializeDemo) Examples.two_tasks))
    = theme (state Examples.two_tasks) /\
  filters (state (exec (perform Session.InitializeDemo) Examples.two_tasks))
    = filters (state Examples.two_tasks) /\
  sortBy (state (exec (perform Session.InitializeDemo) Examples.two_tasks))
    = sortBy (state Examples.two_tasks) /\
  isLoading (state (exec (perform Session.InitializeDemo) Examples.two_tasks))
    = isLoading (state Examples.two_tasks) /\
  darkClass (exec (perform Session.InitializeDemo) Examples.two_tasks)
    = darkClass Examples.two_tasks.
Proof.
  apply (task_operations_keep_the_rest Session.InitializeDemo
           Examples.two_tasks).
  reflexivity.
Defined.

(** X9.  An operation that is neither on the task list nor [logout]
    ([setUser], the theme, filter and sort setters) leaves the task list as
    it was and reads neither the clock nor [Math.random]. *)
Theorem other_operations_keep_the_tasks (a : Action) (w : World) :
  on_tasks a = false -> is_logout a = false ->
  tasks (state (exec (perform a) w)) = tasks (state w) /\
  ticks (exec (perform a) w) = ticks w /\
  draws (exec (perform a) w) = draws w.
Proof.
  intros H L. destruct a; try discriminate H; try discriminate L;
    repeat split.
Qed.

Lemma other_operations_keep_the_tasks_witness :
  tasks (state (exec (perform Session.ToggleTheme) Examples.two_tasks))
    = tasks (state Examples.two_tasks) /\
  ticks (exec (perform Session.ToggleTheme) Examples.two_tasks)
    = ticks Examples.two_tasks /\
  draws (exec (perform Session.ToggleTheme) Examples.two_tasks)
    = draws Examples.two_tasks.
Proof.
  apply (other_operations_keep_the_tasks Session.ToggleTheme
           Examples.two_tasks); reflexivity.
Defined.

Lemma perform_keeps_isLoading (a : Action) (w : World) :
  isLoading (state (exec (perform a) w)) = isLoading (state w).
Proof.
  destruct a; cbn [perform]; try reflexivity.
  - apply updateTask_frame.
  - apply (updateTask_frame i (status_only newStatus) w).
  - unfold exec. rewrite hook_moveTask_unfold.
    apply (updateTask_frame i (status_only newStatus) (tick w)).
Qed.

(** X10.  No operation writes the loading flag: after any sequence of
    operations it has the value it had before (hence [false], its initial
    value, in every state reached from the initial one). *)
Theorem isLoading_never_changes (l : list Action) (w : World) :
  isLoading (state (exec (perform_all l) w)) = isLoading (state w).
Proof.
  revert w; induction l as [|a l IH]; intro w; [reflexivity|].
  rewrite exec_perform_all_cons, IH. apply perform_keeps_isLoading.
Qed.

(** *** The ids [generateId] builds *)

Lemma digits_have_no_dash (d : Decimal.uint) :
  occurs "-" (NilEmpty.string_of_uint d) = false.
Proof.
  induction d; cbn; auto.
Qed.

Lemma toString_has_no_dash (a : Z) :
  0 <= a -> occurs "-" (JS.toString a) = false.
Proof.
  intro H. unfold JS.toString. destruct a as [|p|p]; [reflexivity| |lia].
  cbn [Z.to_int NilZero.string_of_int]. unfold NilZero.string_of_uint.
  destruct (Pos.to_uint p) eqn:E; try (rewrite <- E; apply digits_have_no_dash).
  reflexivity.
Qed.

Lemma toString_inj (a b : Z) : JS.toString a = JS.toString b -> a = b.
Proof.
  unfold JS.toString. intro H.
  assert (N : forall z, Z.to_int z <> Decimal.Pos Decimal.Nil /\
                        Z.to_int z <> Decimal.Neg Decimal.Nil).
  { intros [|p|p]; cbn; split; try discriminate;
      intro E; injection E as E;
      exact (DecimalPos.Unsigned.to_uint_nonnil p E). }
  apply DecimalZ.to_int_inj.
  assert (S : Some (Z.to_int a) = Some (Z.to_int b)).
  { rewrite <- (NilZero.isi (Z.to_int a)) by apply N.
    rewrite <- (NilZero.isi (Z.to_int b)) by apply N.
    now rewrite H. }
  now injection S.
Qed.

(** Two strings without a dash, each followed by a dash and a rest, are
    equal only when the parts are. *)
Lemma dash_splits_uniquely (u v s s' : string) :
  occurs "-" u = false -> occurs "-" v = false ->
  u ++ "-" ++ s = v ++ "-" ++ s' -> u = v /\ s = s'.
Proof.
  revert v; induction u as [|c u IH]; intros [|c' v] Hu Hv E; cbn in *.
  - injection E as E. auto.
  - injection E as Ec _. subst c'. discriminate Hv.
  - injection E as Ec _. subst c. discriminate Hu.
  - injection E as Ec E. subst c'.
    apply orb_false_iff in Hu as [_ Hu]. apply orb_false_iff in Hv as [_ Hv].
    destruct (IH v Hu Hv E) as [-> ->]. auto.
Qed.

Lemma id_parts (a b : Z) (s s' : string) :
  0 <= a -> 0 <= b ->
  JS.toString a ++ "-" ++ s = JS.toString b ++ "-" ++ s' -> a = b /\ s = s'.
Proof.
  intros Ha Hb E.
  apply dash_splits_uniquely in E as [E ->];
    auto using toString_has_no_dash.
  split; [now apply toString_inj | reflexivity].
Qed.

(** X11.  Two calls of [generateId], at non-negative clock readings,
    return the same id only when the clock showed the same millisecond at
    both and the two random suffixes are the same. *)
Theorem generateId_same_id (w1 w2 : World) :
  0 <= clock w1 (ticks w1) -> 0 <= clock w2 (ticks w2) ->
  fst (generateId w1) = fst (generateId w2) ->
  clock w1 (ticks w1) = clock w2 (ticks w2) /\
  JS.substr (random w1 (draws w1)) 2 9 = JS.substr (random w2 (draws w2)) 2 9.
Proof.
  intros H1 H2 E. cbn in E. now apply id_parts.
Qed.

Lemma generateId_same_id_witness :
  clock Examples.fresh (ticks Examples.fresh)
    = clock Examples.two_tasks (ticks Examples.two_tasks) /\
  JS.substr (random Examples.fresh (draws Examples.fresh)) 2 9
    = JS.substr (random Examples.two_tasks (draws Examples.two_tasks)) 2 9.
Proof.
  apply (generateId_same_id Examples.fresh Examples.two_tasks).
  - vm_compute. discriminate.
  - vm_compute. discriminate.
  - reflexivity.
Defined.

(** *** Ids under a clock that moves on *)

Lemma perform_clock (a : Action) (w : World) :
  clock (exec (perform a) w) = clock w /\
  (ticks w <= ticks (exec (perform a) w))%nat.
Proof.
  destruct a; cbn [perform];
    try (split; [reflexivity | cbn; lia]).
  - pose proof (updateTask_frame i updates w). tauto.
  - pose proof (updateTask_frame i (status_only newStatus) w). tauto.
  - unfold exec. rewrite hook_moveTask_unfold.
    pose proof (updateTask_frame i (status_only newStatus) (tick w)) as F.
    unfold exec in F. cbn [tick clock ticks] in F.
    destruct F as (_ & _ & _ & _ & _ & _ & Fc & Ft & _).
    split; [exact Fc | lia].
Qed.

Lemma drawn_before_later (w w' : World) (n n' : nat) (i : string) :
  clock w' = clock w -> (n <= n')%nat ->
  drawn_before w n i -> drawn_before w' n' i.
Proof.
  intros Hc Hn (k & s & Hk & ->). exists k, s. split; [lia | now rewrite Hc].
Qed.

Lemma id_at_drawn (w : World) (dt dr n : nat) :
  (dt + ticks w < n)%nat -> drawn_before w n (id_at w dt dr).
Proof.
  intro H. exists (dt + ticks w)%nat, (JS.substr (random w (dr + draws w)) 2 9).
  split; [exact H | reflexivity].
Qed.

(** Under a clock that moves on, an id drawn now differs from the ids
    drawn at other reads. *)
Lemma id_at_not_drawn_before (w : World) (dt dr : nat) (i : string) :
  clock_moves_on w ->
  drawn_before w (dt + ticks w) i -> i <> id_at w dt dr.
Proof.
  intros [Hpos Hinc] (k & s & Hk & ->) E. unfold id_at in E.
  apply id_parts in E as [E _]; auto.
  specialize (Hinc k (dt + ticks w)%nat Hk). lia.
Qed.

Lemma id_at_apart (w : World) (dt dt' dr dr' : nat) :
  clock_moves_on w -> (dt < dt')%nat -> id_at w dt dr <> id_at w dt' dr'.
Proof.
  intros Hc Hlt. apply id_at_not_drawn_before; [exact Hc|].
  apply id_at_drawn. lia.
Qed.

Lemma string_eqb_false (a b : string) : a <> b -> String.eqb a b = false.
Proof.
  apply String.eqb_neq.
Qed.

Lemma perform_keeps_ids_drawn (a : Action) (w : World) :
  writes_no_id a = true -> ids_drawn w -> ids_drawn (exec (perform a) w).
Proof.
  intros Hw Hd. unfold ids_drawn in *.
  assert (Hsame : ids (state (exec (perform a) w)) = ids (state w) ->
                  Forall (drawn_before (exec (perform a) w)
                                       (ticks (exec (perform a) w)))
                         (ids (state (exec (perform a) w)))).
  { intros ->. destruct (perform_clock a w) as [Hc Ht].
    eapply Forall_impl; [|exact Hd].
    intros i Hi. now apply (drawn_before_later w _ (ticks w)). }
  destruct a; cbn [writes_no_id] in Hw; try (apply Hsame; reflexivity).
  - (* addTask *)
    cbn [perform]. rewrite addTask_ids. constructor.
    + apply (drawn_before_later w _ (3 + ticks w)); [reflexivity|cbn; lia|].
      apply id_at_drawn. lia.
    + eapply Forall_impl; [|exact Hd].
      intros i Hi.
      apply (drawn_before_later w _ (ticks w)); [reflexivity|cbn; lia|exact Hi].
  - (* updateTask *)
    apply Hsame. cbn [perform]. rewrite updateTask_ids.
    destruct (upd_id updates); [discriminate Hw | reflexivity].
  - (* deleteTask *)
    cbn [perform]. apply Forall_forall. intros j Hj.
    unfold ids in Hj. rewrite deleteTask_tasks in Hj.
    apply in_map_iff in Hj as (t & <- & Ht). apply filter_In in Ht as [Ht _].
    rewrite Forall_forall in Hd.
    apply (drawn_before_later w _ (ticks w)); [reflexivity|cbn; lia|].
    apply Hd. unfold ids. now apply in_map.
  - (* moveTask *)
    apply Hsame. cbn [perform]. unfold Store.moveTask.
    now rewrite updateTask_ids.
  - (* the hook's moveTask *)
    apply Hsame. cbn [perform]. unfold exec at 1.
    rewrite hook_moveTask_unfold.
    fold (exec (updateTask i (status_only newStatus)) (tick w)).
    now rewrite updateTask_ids.
  - (* logout *)
    constructor.
  - (* initializeDemo *)
    cbn [perform]. rewrite initializeDemo_ids.
    repeat constructor;
      (apply (drawn_before_later w _ (12 + ticks w));
       [reflexivity | cbn; lia | apply id_at_drawn; lia]).
Qed.

Lemma moving_clock_keeps_ids_apart (a : Action) (w : World) :
  clock_moves_on w -> ids_drawn w -> writes_no_id a = true ->
  keeps_ids_apart a w = true.
Proof.
  intros Hc Hd Hw. destruct a; cbn [keeps_ids_apart writes_no_id] in *;
    try reflexivity.
  - apply negb_true_iff, mem_false. intro Hin.
    unfold ids_drawn in Hd. rewrite Forall_forall in Hd.
    apply (id_at_not_drawn_before w 0 0 (id_at w 0 0) Hc); [|reflexivity].
    apply Hd, Hin.
  - destruct (upd_id updates); [discriminate Hw | reflexivity].
  - cbn [distinct mem existsb].
    rewrite (string_eqb_false _ _ (id_at_apart w 0 4 0 1 Hc ltac:(lia))).
    rewrite (string_eqb_false _ _ (id_at_apart w 0 8 0 2 Hc ltac:(lia))).
    rewrite (string_eqb_false _ _ (id_at_apart w 4 8 1 2 Hc ltac:(lia))).
    reflexivity.
Qed.

Lemma perform_all_under_moving_clock (l : list Action) (w : World) :
  clock_moves_on w -> ids_drawn w -> forallb writes_no_id l = true ->
  all_keep_ids_apart l w = true.
Proof.
  revert w; induction l as [|a l IH]; intros w Hc Hd Hl; [reflexivity|].
  cbn [forallb] in Hl. apply andb_true_iff in Hl as [Ha Hl].
  cbn [all_keep_ids_apart]. apply andb_true_iff. split.
  - now apply moving_clock_keeps_ids_apart.
  - apply IH; [| |exact Hl].
    + destruct (perform_clock a w) as [E _]. unfold clock_moves_on.
      rewrite E. exact Hc.
    + now apply perform_keeps_ids_drawn.
Qed.

(** X12.  When the clock never shows a negative time and shows a later
    millisecond at every read, then, from the initial state, after any
    sequence of operations in which no [updateTask] writes an id, no two
    tasks of the store have the same id: the ids [generateId] draws differ
    by their time part alone. *)
Theorem ids_distinct_under_moving_clock (l : list Action) (w : World) :
  state w = initial -> clock_moves_on w ->
  forallb writes_no_id l = true ->
  NoDup (ids (state (exec (perform_all l) w))).
Proof.
  intros Hi Hc Hl.
  apply perform_all_keeps_ids_distinct.
  - rewrite Hi. constructor.
  - apply perform_all_under_moving_clock; auto.
    unfold ids_drawn. rewrite Hi. constructor.
Qed.

Lemma running_clock_moves_on :
  clock_moves_on (Examples.world initial Examples.running_clock
                                 Examples.same_draw).
Proof.
  unfold clock_moves_on, Examples.world, Examples.running_clock.
  cbn [clock]. split; intros; lia.
Qed.

Lemma ids_distinct_under_moving_clock_witness :
  NoDup (ids (state (exec (perform_all MoreExamples.plain_session)
                          (Examples.world initial Examples.running_clock
                                          Examples.same_draw)))).
Proof.
  apply (ids_distinct_under_moving_clock MoreExamples.plain_session
           (Examples.world initial Examples.running_clock
                           Examples.same_draw)).
  - reflexivity.
  - exact running_clock_moves_on.
  - reflexivity.
Defined.

(** *** Ids that stay distinct *)

(** No operation changes the clock or the draws; it only takes further
    reads and draws. *)
Lemma perform_oracles (a : Action) (w : World) :
  clock (exec (perform a) w) = clock w /\
  random (exec (perform a) w) = random w /\
  (ticks w <= ticks (exec (perform a) w))%nat /\
  (draws w <= draws (exec (perform a) w))%nat.
Proof.
  destruct a; cbn [perform];
    try (repeat split; cbn; lia).
  - pose proof (updateTask_frame i updates w) as F.
    destruct F as (_ & _ & _ & _ & _ & _ & Fc & Ft & Fr & Fd).
    rewrite Fd. auto.
  - pose proof (updateTask_frame i (status_only newStatus) w) as F.
    unfold Store.moveTask.
    destruct F as (_ & _ & _ & _ & _ & _ & Fc & Ft & Fr & Fd).
    rewrite Fd. auto.
  - unfold exec. rewrite hook_moveTask_unfold.
    pose proof (updateTask_frame i (status_only newStatus) (tick w)) as F.
    unfold exec in F. cbn [tick clock ticks random draws] in F.
    destruct F as (_ & _ & _ & _ & _ & _ & Fc & Ft & Fr & Fd).
    rewrite Fd. repeat split; auto. lia.
Qed.

Lemma seen_perform (a : Action) (w : World) (c : Call) :
  seen (exec (perform a) w) c = seen w c.
Proof.
  destruct (perform_oracles a w) as (Hc & Hr & _).
  unfold seen. now rewrite Hc, Hr.
Qed.

Lemma generated_cons (a : Action) (l : list Action) (w : World) :
  generated (a :: l) w
  = (map (fun c => id_of (seen w c)) (calls a w)
     ++ generated l (exec (perform a) w))%list.
Proof.
  unfold generated. cbn [all_calls]. rewrite map_app. f_equal.
  apply map_ext. intro c. now rewrite seen_perform.
Qed.

(** What [generateId] returns is the id of what it sees. *)
Lemma generateId_seen (w : World) :
  fst (generateId w) = id_of (seen w (ticks w, draws w)).
Proof.
  reflexivity.
Qed.

(** The ids [addTask] and [initializeDemo] put into the store are the
    ones of their calls of [generateId]. *)
Lemma calls_ids (w : World) :
  (forall d,
     ids (state (exec (perform (AddTask d)) w))
     = (map (fun c => id_of (seen w c)) (calls (AddTask d) w)
        ++ ids (state w))%list) /\
  ids (state (exec (perform InitializeDemo) w))
  = map (fun c => id_of (seen w c)) (calls InitializeDemo w).
Proof.
  split; [intro d|]; reflexivity.
Qed.

(** At non-negative times, what was seen can be read off the id. *)
Lemma id_of_inj (p q : Z * string) :
  0 <= fst p -> 0 <= fst q -> id_of p = id_of q -> p = q.
Proof.
  destruct p as [a s], q as [b s']. unfold id_of. cbn [fst snd].
  intros Ha Hb E. apply id_parts in E as [-> ->]; auto.
Qed.

Lemma NoDup_app_apart {A : Type} (l l' : list A) (x : A) :
  NoDup (l ++ l') -> In x l -> ~ In x l'.
Proof.
  induction l as [|y l IH]; cbn; intros H Hx Hx'; [exact Hx|].
  inversion H as [|z k Hz Hk]; subst. destruct Hx as [->|Hx].
  - apply Hz, in_or_app. now right.
  - now apply IH.
Qed.

(** When the calls see different things, the ids they give differ. *)
Lemma seen_apart_ids_apart (w : World) (cs cs' : list Call) :
  (forall k, 0 <= clock w k) ->
  NoDup (map (seen w) (cs ++ cs')) ->
  NoDup (map (fun c => id_of (seen w c)) cs) /\
  forall j, In j (map (fun c => id_of (seen w c)) cs) ->
            ~ In j (map (fun c => id_of (seen w c)) cs').
Proof.
  intros Hpos H. rewrite map_app in H. split.
  - apply NoDup_app_remove_r in H.
    rewrite <- (map_map (seen w) id_of).
    induction (map (seen w) cs) as [|p ps IH] eqn:E in cs, H |- *;
      [constructor|].
    destruct cs as [|c cs]; [discriminate E|].
    injection E as <- <-.
    inversion H as [|x l Hx Hl]; subst. cbn [map]. constructor.
    + intro Hin. apply in_map_iff in Hin as (q & Eq & Hq).
      apply in_map_iff in Hq as (c' & <- & Hc').
      apply id_of_inj in Eq; [|apply Hpos|apply Hpos].
      apply Hx. rewrite <- Eq. now apply in_map.
    + now apply (IH cs).
  - intros j Hj Hj'.
    apply in_map_iff in Hj as (c & <- & Hc).
    apply in_map_iff in Hj' as (c' & Eq & Hc').
    apply id_of_inj in Eq; [|apply Hpos|apply Hpos].
    apply (NoDup_app_apart _ _ (seen w c) H).
    + now apply in_map.
    + rewrite <- Eq. now apply in_map.
Qed.

(** One operation: when the store's ids are distinct and none of them is
    drawn by the operation or later, when the operation's own calls of
    [generateId] give distinct ids, none of which is drawn later, and
    when it writes no clashing id, then the ids are distinct afterwards
    and none of them is drawn later. *)
Lemma perform_keeps_ids_new (a : Action) (later : list string)
    (w : World) :
  NoDup (ids (state w)) ->
  not_among (map (fun c => id_of (seen w c)) (calls a w) ++ later)%list
            (state w) ->
  NoDup (map (fun c => id_of (seen w c)) (calls a w)) ->
  (forall j, In j (map (fun c => id_of (seen w c)) (calls a w)) ->
             ~ In j later) ->
  writes_no_clash a later w ->
  NoDup (ids (state (exec (perform a) w))) /\
  not_among later (state (exec (perform a) w)).
Proof.
  intros Hnd Hold Hnew Hlater Hw.
  assert (Hold' : not_among later (state w)).
  { intros j Hj Hin. apply (Hold j Hj), in_or_app. now right. }
  assert (Hfresh : forall j, In j (ids (state w)) ->
             ~ In j (map (fun c => id_of (seen w c)) (calls a w))).
  { intros j Hj Hin. apply (Hold j Hj), in_or_app. now left. }
  destruct a; try (split; [exact Hnd | exact Hold']).
  - (* addTask *)
    destruct (calls_ids w) as [E _]. unfold not_among.
    rewrite (E taskData). split.
    + apply NoDup_app; [exact Hnew | exact Hnd |].
      intros j Hj Hin. exact (Hfresh j Hin Hj).
    + intros j Hj. apply in_app_or in Hj as [Hj|Hj]; auto.
  - (* updateTask *)
    cbn [perform writes_no_clash] in *. unfold not_among.
    rewrite updateTask_ids.
    destruct (upd_id updates) as [j|]; [|split; [exact Hnd | exact Hold']].
    destruct Hw as [Hi | [-> | [Hj Hj']]].
    + rewrite rename_absent by exact Hi. split; [exact Hnd | exact Hold'].
    + rewrite rename_same. split; [exact Hnd | exact Hold'].
    + split; [now apply rename_NoDup|].
      intros x Hx. apply rename_In in Hx as [Hx| ->]; auto.
  - (* deleteTask *)
    cbn [perform]. unfold not_among, ids. rewrite deleteTask_tasks. split.
    + now apply filter_ids_NoDup.
    + intros j Hj. apply Hold'.
      apply in_map_iff in Hj as (t & <- & Ht).
      apply filter_In in Ht as [Ht _]. unfold ids. now apply in_map.
  - (* moveTask *)
    cbn [perform]. unfold Store.moveTask, not_among.
    rewrite updateTask_ids. split; [exact Hnd | exact Hold'].
  - (* the hook's moveTask *)
    cbn [perform]. unfold not_among, exec at 1 2.
    rewrite hook_moveTask_unfold.
    fold (exec (updateTask i (status_only newStatus)) (tick w)).
    rewrite updateTask_ids. split; [exact Hnd | exact Hold'].
  - (* logout *)
    split; [constructor | intros j []].
  - (* initializeDemo *)
    destruct (calls_ids w) as [_ E]. unfold not_among. rewrite E.
    split; [exact Hnew | exact Hlater].
Qed.

Lemma perform_all_keeps_ids_new (l : list Action) (w : World) :
  (forall k, 0 <= clock w k) ->
  NoDup (ids (state w)) ->
  not_among (generated l w) (state w) ->
  NoDup (map (seen w) (all_calls l w)) ->
  never_writes_a_clash l w ->
  NoDup (ids (state (exec (perform_all l) w))).
Proof.
  revert w; induction l as [|a l IH]; intros w Hpos Hnd Hold Hseen Hw.
  - exact Hnd.
  - rewrite exec_perform_all_cons.
    cbn [never_writes_a_clash] in Hw. destruct Hw as [Ha Hl].
    cbn [all_calls] in Hseen. rewrite generated_cons in Hold.
    destruct (seen_apart_ids_apart w _ _ Hpos Hseen) as [Hnew Hlater].
    assert (Elater : map (fun c => id_of (seen w c))
                         (all_calls l (exec (perform a) w))
                     = generated l (exec (perform a) w)).
    { unfold generated. apply map_ext. intro c.
      now rewrite seen_perform. }
    rewrite Elater in Hlater.
    destruct (perform_keeps_ids_new a _ w Hnd Hold Hnew Hlater Ha)
      as [Hnd' Hold'].
    destruct (perform_oracles a w) as (Hc & Hr & _).
    apply IH; auto.
    + intro k. rewrite Hc. apply Hpos.
    + rewrite map_app in Hseen. apply NoDup_app_remove_l in Hseen.
      erewrite map_ext; [exact Hseen|].
      intro c. apply seen_perform.
Qed.

(** C2, as amended.  Starting from the initial state, after any sequence
    of store operations, no two tasks of the store have the same id,
    provided that the clock shows no negative time, that no two calls of
    [generateId] made during the sequence see both the same millisecond
    and the same random suffix, and that every [updateTask] that carries
    an id matches no task, or carries the matched task's own id, or
    carries an id that no task holds and that [generateId] does not
    return later in the sequence. *)
Theorem ids_stay_distinct (l : list Action) (w : World) :
  state w = initial ->
  (forall k, 0 <= clock w k) ->
  NoDup (map (seen w) (all_calls l w)) ->
  never_writes_a_clash l w ->
  NoDup (ids (state (exec (perform_all l) w))).
Proof.
  intros Hinit Hpos Hseen Hw.
  apply perform_all_keeps_ids_new; auto.
  - rewrite Hinit. constructor.
  - intros j Hj. rewrite Hinit in Hj. destruct Hj.
Qed.

Lemma seen_eqb_eq (p q : Z * string) : seen_eqb p q = true <-> p = q.
Proof.
  destruct p as [a s], q as [b s']. unfold seen_eqb. cbn [fst snd].
  rewrite andb_true_iff, Z.eqb_eq, String.eqb_eq.
  split; [intros [-> ->]; reflexivity | intros [= -> ->]; auto].
Qed.

Lemma no_repeat_NoDup (l : list (Z * string)) :
  no_repeat l = true -> NoDup l.
Proof.
  induction l as [|p l IH]; cbn [no_repeat]; intro H; [constructor|].
  apply andb_true_iff in H as [Hp Hl]. constructor; [|auto].
  intro Hin. apply negb_true_iff in Hp.
  assert (E : existsb (seen_eqb p) l = true).
  { apply existsb_exists. exists p. split; [exact Hin|].
    now apply seen_eqb_eq. }
  congruence.
Qed.

Lemma slow_clock_not_negative (k : nat) :
  0 <= clock MoreExamples.fresh_slow k.
Proof.
  unfold MoreExamples.fresh_slow, Examples.world, MoreExamples.slow_clock.
  cbn [clock]. lia.
Qed.

(** In the example session the two [addTask] see the same millisecond and
    different suffixes; the three calls of [initializeDemo] see the same
    suffix at different milliseconds. *)
Lemma renaming_session_calls :
  map (seen MoreExamples.fresh_slow)
      (all_calls MoreExamples.renaming_session MoreExamples.fresh_slow)
  = [ (1700000000000, "4fzyo82mv"); (1700000000000, "k3j9x0qpl");
      (1700000000002, "k3j9x0qpl"); (1700000000003, "k3j9x0qpl");
      (1700000000004, "k3j9x0qpl") ].
Proof.
  vm_compute. reflexivity.
Qed.

Lemma renaming_session_writes_no_clash :
  never_writes_a_clash MoreExamples.renaming_session
                       MoreExamples.fresh_slow.
Proof.
  vm_compute. repeat split; auto.
  - left. intros [E|[E|[]]]; discriminate E.
  - right. right. split.
    + intros [E|[E|[]]]; discriminate E.
    + intros [E|[E|[E|[]]]]; discriminate E.
Qed.

Lemma ids_stay_distinct_witness :
  NoDup (ids (state (exec (perform_all MoreExamples.renaming_session)
                          MoreExamples.fresh_slow))).
Proof.
  apply (ids_stay_distinct MoreExamples.renaming_session
           MoreExamples.fresh_slow).
  - reflexivity.
  - exact slow_clock_not_negative.
  - rewrite renaming_session_calls. apply no_repeat_NoDup. reflexivity.
  - exact renaming_session_writes_no_clash.
Defined.

(** The ids the example session leaves in the store. *)
Example renaming_session_ids :
  ids (state (exec (perform_all MoreExamples.renaming_session)
                   MoreExamples.fresh_slow))
  = [ "1700000000002-k3j9x0qpl"; "1700000000003-k3j9x0qpl";
      "1700000000004-k3j9x0qpl" ] /\
  ids (state (exec (perform_all (firstn 7 MoreExamples.renaming_session))
                   MoreExamples.fresh_slow))
  = [ "first" ].
Proof.
  split; vm_compute; reflexivity.
Qed.

(** The calls of a session come in turn. *)
Lemma in_turn_from (k k' r r' : nat) (l : list Call) :
  (k' <= k)%nat -> (r' <= r)%nat -> in_turn k r l -> in_turn k' r' l.
Proof.
  destruct l as [|c l]; cbn [in_turn]; [auto|].
  intros Hk Hr (H1 & H2 & H3). repeat split; [lia | lia | exact H3].
Qed.

Lemma all_calls_in_turn (l : list Action) (w : World) :
  in_turn (ticks w) (draws w) (all_calls l w).
Proof.
  revert w; induction l as [|a l IH]; intro w; [exact I|].
  cbn [all_calls]. specialize (IH (exec (perform a) w)).
  destruct (perform_oracles a w) as (_ & _ & Ht & Hd).
  destruct a; cbn [calls app];
    try (apply (in_turn_from _ _ _ _ _ Ht Hd IH)).
  - cbn [in_turn fst snd]. repeat split; [lia | lia |].
    eapply in_turn_from; [| |exact IH]; cbn; lia.
  - cbn [in_turn fst snd]. repeat split; try lia.
    eapply in_turn_from; [| |exact IH]; cbn; lia.
Qed.

Lemma in_turn_later (k r : nat) (l : list Call) :
  in_turn k r l -> Forall (fun c => (k <= fst c)%nat) l.
Proof.
  revert k r; induction l as [|c l IH]; intros k r; cbn [in_turn];
    [constructor|].
  intros (H1 & H2 & H3). constructor; [exact H1|].
  eapply Forall_impl; [|exact (IH _ _ H3)].
  cbn beta. intros c' Hc'. lia.
Qed.

(** Under a clock that never shows the same millisecond at two reads, no
    two calls of [generateId] of a session see the same thing. *)
Lemma calls_see_different_milliseconds (l : list Action) (w : World) :
  (forall j k, j <> k -> clock w j <> clock w k) ->
  NoDup (map (seen w) (all_calls l w)).
Proof.
  intro Hclock.
  pose proof (all_calls_in_turn l w) as H. revert H.
  generalize (ticks w), (draws w), (all_calls l w).
  intros k r cs; revert k r; induction cs as [|c cs IH]; intros k r;
    cbn [in_turn map]; [constructor|].
  intros (H1 & H2 & H3). constructor; [|exact (IH _ _ H3)].
  intro Hin. apply in_map_iff in Hin as (c' & E & Hc').
  apply in_turn_later in H3. rewrite Forall_forall in H3.
  specialize (H3 c' Hc'). unfold seen in E. injection E as E _.
  apply (Hclock (fst c') (fst c)); [lia | exact E].
Qed.


(* ================================================================== *)
(** ** Properties of the views of the task hook *)
(* ================================================================== *)

Lemma status_eqb_eq (a b : TaskStatus) :
  TaskViews.status_eqb a b = true <-> a = b.
Proof.
  destruct a, b; cbn; split; congruence.
Qed.

Lemma filter_status_Forall (s : TaskStatus) (ts : list Task) :
  Forall (fun t => status t = s)
         (filter (fun t => TaskViews.status_eqb (status t) s) ts).
Proof.
  apply Forall_forall. intros t Ht. apply filter_In in Ht as [_ Ht].
  now apply status_eqb_eq.
Qed.

(** X13.  The four columns of [tasksByStatus] split the task list: put
    end to end they hold the tasks of the list, each as many times as the
    list does, and every task of a column has the status of that column. *)
Theorem tasksByStatus_splits_the_list (ts : list Task) :
  Permutation
    (TaskViews.col_todo (TaskViews.tasksByStatus ts) ++
     TaskViews.col_inProgress (TaskViews.tasksByStatus ts) ++
     TaskViews.col_review (TaskViews.tasksByStatus ts) ++
     TaskViews.col_done (TaskViews.tasksByStatus ts))%list
    ts /\
  Forall (fun t => status t = todo)
         (TaskViews.col_todo (TaskViews.tasksByStatus ts)) /\
  Forall (fun t => status t = in_progress)
         (TaskViews.col_inProgress (TaskViews.tasksByStatus ts)) /\
  Forall (fun t => status t = review)
         (TaskViews.col_review (TaskViews.tasksByStatus ts)) /\
  Forall (fun t => status t = done)
         (TaskViews.col_done (TaskViews.tasksByStatus ts)).
Proof.
  split; [|repeat split; apply filter_status_Forall].
  unfold TaskViews.tasksByStatus; cbn.
  induction ts as [|t ts IH]; [constructor|].
  cbn [filter]. destruct (status t); cbn.
  - now constructor.
  - symmetry. apply Permutation_cons_app. now symmetry.
  - symmetry. rewrite app_assoc. apply Permutation_cons_app.
    rewrite <- app_assoc. now symmetry.
  - symmetry. rewrite !app_assoc. apply Permutation_cons_app.
    rewrite <- !app_assoc. now symmetry.
Qed.

Lemma filterM_cons {A : Type} (p : A -> M bool) (a : A) (l : list A)
    (w : World) :
  TaskViews.filterM p (a :: l) w =
  let (b, w1) := p a w in
  let (rest, w2) := TaskViews.filterM p l w1 in
  (if b then a :: rest else rest, w2).
Proof.
  cbn [TaskViews.filterM]; unfold bind, ret.
  destruct (p a w) as [b w1].
  destruct (TaskViews.filterM p l w1); reflexivity.
Qed.

Section Overdue.

Variable Date_value : string -> JS.jsnum.

Lemma is_overdue_open_eq (t : Task) (w : World) :
  TaskViews.is_overdue_open Date_value t w =
  (JS.lt (Date_value (dueDate t)) (clock w (ticks w))
   && negb (TaskViews.status_eqb (status t) done), tick w).
Proof.
  reflexivity.
Qed.

(** The tasks counted as overdue are not done; each task costs one clock
    read, and nothing else of the world changes. *)
Lemma filterM_overdue (ts : list Task) (w : World) :
  (List.length (fst (TaskViews.filterM
                       (TaskViews.is_overdue_open Date_value) ts w))
   + List.length (filter (fun t => TaskViews.status_eqb (status t) done) ts)
   <= List.length ts)%nat /\
  state (snd (TaskViews.filterM (TaskViews.is_overdue_open Date_value) ts w))
    = state w /\
  ticks (snd (TaskViews.filterM (TaskViews.is_overdue_open Date_value) ts w))
    = (List.length ts + ticks w)%nat.
Proof.
  revert w; induction ts as [|t ts IH]; intro w.
  - cbn. auto.
  - rewrite filterM_cons, is_overdue_open_eq.
    specialize (IH (tick w)).
    destruct (TaskViews.filterM _ ts (tick w)) as [rest w2].
    cbn [fst snd filter List.length tick state ticks] in *.
    destruct IH as (IHl & IHs & IHt).
    split; [|split; [exact IHs | lia]].
    destruct (TaskViews.status_eqb (status t) done);
      destruct (JS.lt (Date_value (dueDate t)) (clock w (ticks w)));
      cbn [andb negb List.length]; lia.
Qed.

End Overdue.

(** X14.  The statistics of the hook: [total] is the length of the list,
    [completed] and [inProgress] are the lengths of the columns [done] and
    [inProgress], and the tasks counted as [overdue] are among those not
    completed, whatever the dates are.  Computing them reads the clock
    once for every task and leaves the store as it was. *)
Theorem stats_counts (Date_value : string -> JS.jsnum) (ts : list Task)
    (w : World) :
  TaskViews.total (fst (TaskViews.stats Date_value ts w)) = List.length ts /\
  TaskViews.completed (fst (TaskViews.stats Date_value ts w))
    = List.length (TaskViews.col_done (TaskViews.tasksByStatus ts)) /\
  TaskViews.inProgress (fst (TaskViews.stats Date_value ts w))
    = List.length (TaskViews.col_inProgress (TaskViews.tasksByStatus ts)) /\
  (TaskViews.overdue (fst (TaskViews.stats Date_value ts w))
   + TaskViews.completed (fst (TaskViews.stats Date_value ts w))
   <= TaskViews.total (fst (TaskViews.stats Date_value ts w)))%nat /\
  state (snd (TaskViews.stats Date_value ts w)) = state w /\
  ticks (snd (TaskViews.stats Date_value ts w))
    = (List.length ts + ticks w)%nat.
Proof.
  pose proof (filterM_overdue Date_value ts w) as H.
  unfold TaskViews.stats, bind, ret.
  destruct (TaskViews.filterM _ ts w) as [late w']. cbn in *.
  destruct H as (Hl & Hs & Ht). repeat split; auto.
Qed.

(* ================================================================== *)
(** ** Further properties of the helpers *)
(* ================================================================== *)

(** *** [truncate] *)

Lemma substring_length (m : nat) (s : string) :
  String.length (String.substring 0 m s) = Nat.min m (String.length s).
Proof.
  revert m; induction s as [|c s IH]; intros [|m]; cbn; auto.
Qed.

Lemma substring_of_append (p s : string) :
  String.substring 0 (String.length p) (p ++ s) = p.
Proof.
  induction p as [|c p IH]; cbn.
  - destruct s; reflexivity.
  - now rewrite IH.
Qed.

Lemma length_app (a b : string) :
  String.length (a ++ b) = (String.length a + String.length b)%nat.
Proof.
  induction a as [|c a IH]; cbn; auto.
Qed.

(** [s.substring(0, n)] is the string of the first [n] code units, [n]
    brought into the bounds of [s]. *)
Lemma substring_from_0 (s : string) (n : Z) :
  JS.substring s 0 n
  = String.substring 0 (Z.to_nat (Z.min (Z.max n 0) (JS.length s))) s.
Proof.
  unfold JS.substring, JS.clamp, JS.length.
  rewrite (Z.max_l 0 0) by lia.
  rewrite (Z.min_l 0 (Z.of_nat (String.length s))) by lia.
  rewrite (Z.min_l 0), (Z.max_r 0) by lia.
  now rewrite Z.sub_0_r.
Qed.

(** A text longer than [n] becomes its first [max n 0] code units and the
    three dots. *)
Lemma truncate_long (text : string) (n : Z) :
  n < JS.length text ->
  Helpers.truncate text n
  = String.substring 0 (Z.to_nat (Z.max n 0)) text ++ "...".
Proof.
  intro H. unfold Helpers.truncate.
  destruct (Z.leb_spec (JS.length text) n); [lia|].
  rewrite substring_from_0. unfold JS.length in *.
  now rewrite Z.min_l by lia.
Qed.

(** X15.  Truncating twice to the same length is truncating once, for
    every text and every integer length. *)
Theorem truncate_idempotent (text : string) (n : Z) :
  Helpers.truncate (Helpers.truncate text n) n = Helpers.truncate text n.
Proof.
  destruct (Z.leb_spec (JS.length text) n) as [H|H].
  - unfold Helpers.truncate.
    destruct (Z.leb_spec (JS.length text) n); [|lia].
    destruct (Z.leb_spec (JS.length text) n); [reflexivity|lia].
  - rewrite (truncate_long text n H).
    set (p := String.substring 0 (Z.to_nat (Z.max n 0)) text).
    assert (L : String.length p = Z.to_nat (Z.max n 0)).
    { unfold p. rewrite substring_length. unfold JS.length in H. lia. }
    rewrite truncate_long.
    + rewrite <- L. now rewrite substring_of_append.
    + unfold JS.length. rewrite length_app. cbn. lia.
Qed.

(** X16.  The result of [truncate] has at most [maxLength + 3] code units
    (3 when [maxLength] is negative). *)
Theorem truncate_length_bound (text : string) (maxLength : Z) :
  JS.length (Helpers.truncate text maxLength) <= Z.max maxLength 0 + 3.
Proof.
  destruct (Z.leb_spec (JS.length text) maxLength) as [H|H].
  - unfold Helpers.truncate.
    destruct (Z.leb_spec (JS.length text) maxLength); lia.
  - rewrite (truncate_long text maxLength H).
    unfold JS.length in *. rewrite length_app, substring_length. cbn. lia.
Qed.

(** X17.  With a negative [maxLength] the result is the three dots alone,
    whatever the text, the empty one included. *)
Theorem truncate_negative (text : string) (maxLength : Z) :
  maxLength < 0 -> Helpers.truncate text maxLength = "...".
Proof.
  intro H. rewrite truncate_long by (unfold JS.length; lia).
  rewrite Z.max_r by lia. cbn. now destruct text.
Qed.

Lemma truncate_negative_witness : Helpers.truncate "" (-1) = "...".
Proof.
  apply (truncate_negative "" (-1)). lia.
Defined.

(** *** [getInitials] *)

Lemma split_nonempty (sep : ascii) (s : string) : MoreHelpers.split sep s <> [].
Proof.
  destruct s as [|c s]; cbn; [discriminate|].
  destruct (Ascii.eqb c sep); [discriminate|].
  destruct (MoreHelpers.split sep s); discriminate.
Qed.

Lemma initials_of_split (s : string) :
  MoreHelpers.join (map MoreHelpers.char0 (MoreHelpers.split " " s))
    = word_starts true s /\
  MoreHelpers.join (map MoreHelpers.char0 (tl (MoreHelpers.split " " s)))
    = word_starts false s.
Proof.
  induction s as [|c s [IHt IHf]]; [split; reflexivity|].
  cbn [MoreHelpers.split word_starts].
  destruct (Ascii.eqb c " ").
  - cbn. auto.
  - pose proof (split_nonempty " " s) as N.
    destruct (MoreHelpers.split " " s) as [|w ws]; [contradiction|].
    cbn in *. rewrite IHf. auto.
Qed.

(** X18.  [getInitials] returns at most two code units: the first two of
    the upper-cased string of the code units that start a run of
    non-space code units in the name.  Empty words, which repeated,
    leading or trailing spaces give, add nothing. *)
Theorem getInitials_spec (toUpperCase : string -> string) (name : string) :
  MoreHelpers.getInitials toUpperCase name
    = JS.substring (toUpperCase (word_starts true name)) 0 2 /\
  JS.length (MoreHelpers.getInitials toUpperCase name) <= 2.
Proof.
  unfold MoreHelpers.getInitials.
  destruct (initials_of_split name) as [-> _].
  split; [reflexivity|].
  rewrite substring_from_0. unfold JS.length.
  rewrite substring_length. lia.
Qed.

Example getInitials_of_a_name :
  MoreHelpers.getInitials MoreExamples.upper "ramadan  alaa " = "RA".
Proof.
  reflexivity.
Qed.

(** *** [groupBy] and [isEmpty] *)

Section GroupByFacts.

Variable T : Type.
Variable key : T -> string.
Variable inherited : string -> bool.

Lemma own_push_same (g : string) (item : T) (r : MoreHelpers.Groups T)
    (arr : list T) :
  MoreHelpers.own T g r = Some arr ->
  MoreHelpers.own T g (MoreHelpers.push T g item r)
  = Some (arr ++ [item])%list.
Proof.
  induction r as [|[g' a] r IH]; cbn; [discriminate|].
  destruct (String.eqb g' g) eqn:E; cbn; rewrite E.
  - now intros [= ->].
  - exact IH.
Qed.

Lemma own_push_other (g g' : string) (item : T) (r : MoreHelpers.Groups T) :
  g <> g' ->
  MoreHelpers.own T g (MoreHelpers.push T g' item r) = MoreHelpers.own T g r.
Proof.
  intro N. induction r as [|[h a] r IH]; cbn; [reflexivity|].
  destruct (String.eqb h g') eqn:E; cbn.
  - apply String.eqb_eq in E. subst h.
    destruct (String.eqb g' g) eqn:E'; [|reflexivity].
    apply String.eqb_eq in E'. congruence.
  - now rewrite IH.
Qed.

Lemma own_added (g g' : string) (item : T) (r : MoreHelpers.Groups T) :
  MoreHelpers.own T g (r ++ [(g', [item])])%list =
  match MoreHelpers.own T g r with
  | Some arr => Some arr
  | None => if String.eqb g' g then Some [item] else None
  end.
Proof.
  induction r as [|[h a] r IH]; cbn; [reflexivity|].
  destruct (String.eqb h g); [reflexivity | exact IH].
Qed.

Lemma keys_push (g : string) (item : T) (r : MoreHelpers.Groups T) :
  map fst (MoreHelpers.push T g item r) = map fst r.
Proof.
  induction r as [|[h a] r IH]; cbn; [reflexivity|].
  destruct (String.eqb h g); cbn; [reflexivity | now rewrite IH].
Qed.

Lemma own_none_not_key (g : string) (r : MoreHelpers.Groups T) :
  MoreHelpers.own T g r = None -> ~ In g (map fst r).
Proof.
  induction r as [|[h a] r IH]; cbn; [tauto|].
  destruct (String.eqb h g) eqn:E; [discriminate|].
  apply String.eqb_neq in E. intros H [F|F]; [contradiction | now apply IH].
Qed.

Lemma group_of_app (l : list T) (item : T) (g : string) :
  group_of key (l ++ [item]) g =
  if String.eqb (key item) g
  then Some (filter (fun x => String.eqb (key x) g) l ++ [item])%list
  else group_of key l g.
Proof.
  unfold group_of. rewrite filter_app. cbn [filter].
  destruct (String.eqb (key item) g).
  - destruct (filter _ l); reflexivity.
  - now rewrite app_nil_r.
Qed.

Lemma group_of_some (l : list T) (g : string) (arr : list T) :
  group_of key l g = Some arr ->
  filter (fun x => String.eqb (key x) g) l = arr.
Proof.
  unfold group_of. destruct (filter _ l); [discriminate | now intros [= <-]].
Qed.

Lemma group_of_none (l : list T) (g : string) :
  group_of key l g = None -> filter (fun x => String.eqb (key x) g) l = [].
Proof.
  unfold group_of. destruct (filter _ l); [reflexivity | discriminate].
Qed.

Lemma group_step_returns (r : MoreHelpers.Groups T) (seen : list T)
    (item : T) :
  holds_groups key r seen -> inherited (key item) = false ->
  exists r',
    MoreHelpers.group_step T key inherited r item
      = MoreHelpers.Returned r' /\
    holds_groups key r' (seen ++ [item]).
Proof.
  intros [Hown Hnd] Hin. unfold MoreHelpers.group_step.
  destruct (MoreHelpers.own T (key item) r) as [arr|] eqn:E.
  - eexists; split; [reflexivity|]. split.
    + intro g. rewrite group_of_app.
      destruct (String.eqb (key item) g) eqn:Eg.
      * apply String.eqb_eq in Eg. subst g.
        rewrite (own_push_same _ _ _ _ E). f_equal. f_equal.
        symmetry. apply group_of_some. now rewrite <- Hown.
      * apply String.eqb_neq in Eg.
        rewrite own_push_other by congruence. apply Hown.
    + now rewrite keys_push.
  - rewrite Hin. eexists; split; [reflexivity|]. split.
    + intro g. rewrite group_of_app, own_added.
      destruct (String.eqb (key item) g) eqn:Eg.
      * apply String.eqb_eq in Eg. subst g. rewrite E.
        rewrite group_of_none by now rewrite <- Hown. reflexivity.
      * rewrite Hown. now destruct (group_of key seen g).
    + rewrite map_app. cbn [map fst]. apply NoDup_app.
      * exact Hnd.
      * constructor; [intros []|constructor].
      * intros a Ha [<-|[]]. now apply (own_none_not_key _ _ E).
Qed.

(** An item whose key is an inherited name makes the reducer throw: that
    name is no own field, since all items seen had other keys. *)
Lemma group_step_throws (r : MoreHelpers.Groups T) (seen : list T)
    (item : T) :
  holds_groups key r seen ->
  forallb (fun x => negb (inherited (key x))) seen = true ->
  inherited (key item) = true ->
  MoreHelpers.group_step T key inherited r item = MoreHelpers.Threw.
Proof.
  intros [Hown _] Hseen Hin. unfold MoreHelpers.group_step.
  rewrite Hown, Hin. unfold group_of.
  destruct (filter _ seen) as [|x xs] eqn:F; [reflexivity|].
  assert (Hx : In x (filter (fun x => String.eqb (key x) (key item)) seen))
    by (rewrite F; now left).
  apply filter_In in Hx as [Hx Ek]. apply String.eqb_eq in Ek.
  rewrite forallb_forall in Hseen. specialize (Hseen x Hx).
  rewrite Ek, Hin in Hseen. discriminate.
Qed.

Lemma reduce_groups (array : list T) (r : MoreHelpers.Groups T)
    (seen : list T) :
  holds_groups key r seen ->
  forallb (fun x => negb (inherited (key x))) seen = true ->
  if existsb (fun x => inherited (key x)) array
  then MoreHelpers.reduce T key inherited array r = MoreHelpers.Threw
  else exists r',
    MoreHelpers.reduce T key inherited array r = MoreHelpers.Returned r' /\
    holds_groups key r' (seen ++ array).
Proof.
  revert r seen; induction array as [|item array IH]; intros r seen Hr Hs.
  - cbn. exists r. rewrite app_nil_r. auto.
  - cbn [existsb MoreHelpers.reduce].
    destruct (inherited (key item)) eqn:Hin; cbn [orb].
    + now rewrite (group_step_throws r seen item).
    + destruct (group_step_returns r seen item Hr Hin) as (r1 & -> & Hr1).
      specialize (IH r1 (seen ++ [item])%list Hr1).
      rewrite forallb_app in IH. cbn in IH. rewrite Hs, Hin in IH.
      specialize (IH eq_refl).
      rewrite <- app_assoc in IH. exact IH.
Qed.

End GroupByFacts.

Lemma groupBy_groups_aux (T : Type) (key : T -> string)
    (inherited : string -> bool) (array : list T) :
  if existsb (fun x => inherited (key x)) array
  then MoreHelpers.groupBy T key inherited array = MoreHelpers.Threw
  else exists r,
    MoreHelpers.groupBy T key inherited array = MoreHelpers.Returned r /\
    (forall g, MoreHelpers.own T g r = group_of key array g) /\
    NoDup (map fst r).
Proof.
  pose proof (reduce_groups T key inherited array [] []) as H.
  cbn [app] in H. apply H; [|reflexivity].
  split; [reflexivity | constructor].
Qed.

(** X19.  [groupBy] throws exactly when the key of some element is a name
    every object inherits (it finds the inherited value, which has no
    [push]).  Otherwise it returns an object that has, for every key [g],
    the elements whose key is [g], in the order of the array, under the
    one field [g], and no field for a key no element has. *)
Theorem groupBy_groups (T : Type) (key : T -> string)
    (inherited : string -> bool) (array : list T) :
  if existsb (fun x => inherited (key x)) array
  then MoreHelpers.groupBy T key inherited array = MoreHelpers.Threw
  else exists r,
    MoreHelpers.groupBy T key inherited array = MoreHelpers.Returned r /\
    (forall g, MoreHelpers.own T g r = group_of key array g) /\
    NoDup (map fst r).
Proof.
  apply groupBy_groups_aux.
Qed.

(** X20.  The object [groupBy] returns is empty, for [isEmpty], exactly
    when the array is. *)
Theorem groupBy_isEmpty (T : Type) (key : T -> string)
    (inherited : string -> bool) (array : list T)
    (r : MoreHelpers.Groups T) :
  MoreHelpers.groupBy T key inherited array = MoreHelpers.Returned r ->
  MoreHelpers.isEmpty r = match array with [] => true | _ :: _ => false end.
Proof.
  intro E. pose proof (groupBy_groups_aux T key inherited array) as H.
  rewrite E in H.
  destruct (existsb _ array); [discriminate H|].
  destruct H as (r' & [= <-] & Hown & _).
  destruct array as [|x xs].
  - destruct r as [|[g a] r]; [reflexivity|].
    specialize (Hown g). cbn [MoreHelpers.own] in Hown.
    rewrite String.eqb_refl in Hown. discriminate Hown.
  - destruct r as [|[g a] r]; [|reflexivity].
    specialize (Hown (key x)). unfold group_of in Hown.
    cbn [MoreHelpers.own filter] in Hown.
    rewrite String.eqb_refl in Hown. discriminate Hown.
Qed.

Lemma groupBy_isEmpty_witness :
  MoreHelpers.isEmpty
    [ ("todo", [Examples.task_a; Examples.task_b]) ] = false.
Proof.
  apply (groupBy_isEmpty Task
           (fun t => match status t with
                     | todo => "todo" | in_progress => "in-progress"
                     | review => "review" | done => "done"
                     end)
           MoreExamples.inherited [Examples.task_a; Examples.task_b]
           [ ("todo", [Examples.task_a; Examples.task_b]) ]).
  reflexivity.
Defined.

(** An array with a key that every object inherits. *)
Example groupBy_throws_on_constructor :
  MoreHelpers.groupBy string (fun s => s) MoreExamples.inherited
    ["todo"; "constructor"; "done"] = MoreHelpers.Threw.
Proof.
  reflexivity.
Qed.

(** *** [addTask] *)

(** X21.  [addTask] puts one task in front of the list and keeps the
    former tasks after it, unchanged and in their order.  The new task has
    the fields of the data given, the id [generateId] draws, and the ISO
    strings of the next two clock readings as [createdAt] and
    [updatedAt]. *)
Theorem addTask_adds_one_task (w : World) (d : TaskData) :
  exists t,
    tasks (state (exec (addTask d) w)) = t :: tasks (state w) /\
    title t = data_title d /\ description t = data_description d /\
    status t = data_status d /\ priority t = data_priority d /\
    category t = data_category d /\ dueDate t = data_dueDate d /\
    tags t = data_tags d /\ assignee t = data_assignee d /\
    estimatedHours t = data_estimatedHours d /\
    id t = id_at w 0 0 /\
    createdAt t = JS.toISOString (clock w (1 + ticks w)) /\
    updatedAt t = JS.toISOString (clock w (2 + ticks w)).
Proof.
  eexists. repeat split.
Qed.

(* ================================================================== *)
(** ** Further properties of the date helpers *)
(* ================================================================== *)

Section DueDate.

Variable Date : Type.
Variable new_Date : string -> Date.
Variable differenceInDays : Date -> Date -> JS.jsnum.
Variable now : Date.

(** The status as a function of the day difference. *)
Lemma due_status_cases (dueDate : string) :
  match DateHelpers.getDaysUntil Date new_Date differenceInDays now dueDate
  with
  | JS.NaN =>
      DateHelpers.due_status
        (DateHelpers.getDueDateStatus Date new_Date differenceInDays now
           dueDate) = DateHelpers.upcoming
  | JS.Num d =>
      DateHelpers.due_status
        (DateHelpers.getDueDateStatus Date new_Date differenceInDays now
           dueDate)
      = if d <? 0 then DateHelpers.overdue
        else if d <=? 3 then DateHelpers.due_soon
        else DateHelpers.upcoming
  end.
Proof.
  unfold DateHelpers.getDueDateStatus.
  destruct (DateHelpers.getDaysUntil Date new_Date differenceInDays now
              dueDate) as [|d]; [reflexivity|].
  unfold JS.lt, JS.strict_eq, JS.le.
  destruct (Z.ltb_spec d 0); [reflexivity|].
  destruct (Z.eqb_spec d 0); destruct (Z.leb_spec d 3);
    try reflexivity; lia.
Qed.

End DueDate.

(** X22.  A due date whose day difference is [NaN] (a string that is not
    a date) is classified [upcoming], in green, with the text
    "Due in NaN days". *)
Theorem getDueDateStatus_invalid_date
    (Date : Type) (new_Date : string -> Date)
    (differenceInDays : Date -> Date -> JS.jsnum) (now : Date)
    (dueDate : string) :
  DateHelpers.getDaysUntil Date new_Date differenceInDays now dueDate
    = JS.NaN ->
  DateHelpers.getDueDateStatus Date new_Date differenceInDays now dueDate
  = {| DateHelpers.due_status := DateHelpers.upcoming;
       DateHelpers.color := "text-green-600 dark:text-green-400";
       DateHelpers.text := "Due in NaN days" |}.
Proof.
  intro E. unfold DateHelpers.getDueDateStatus. rewrite E. reflexivity.
Qed.

Lemma getDueDateStatus_invalid_date_witness :
  DateHelpers.getDueDateStatus Z MoreExamples.not_a_date MoreExamples.no_days
    1700000000000 "soon"
  = {| DateHelpers.due_status := DateHelpers.upcoming;
       DateHelpers.color := "text-green-600 dark:text-green-400";
       DateHelpers.text := "Due in NaN days" |}.
Proof.
  apply (getDueDateStatus_invalid_date Z MoreExamples.not_a_date
           MoreExamples.no_days 1700000000000 "soon").
  reflexivity.
Defined.

(** X23.  The status tells the day difference back: [overdue] is given
    only for a negative number of days, [due_soon] only for 0 to 3 days,
    and [upcoming] only for 4 days or more or for [NaN]. *)
Theorem getDueDateStatus_status_iff
    (Date : Type) (new_Date : string -> Date)
    (differenceInDays : Date -> Date -> JS.jsnum) (now : Date)
    (dueDate : string) :
  (DateHelpers.due_status
     (DateHelpers.getDueDateStatus Date new_Date differenceInDays now dueDate)
     = DateHelpers.overdue <->
   exists d, DateHelpers.getDaysUntil Date new_Date differenceInDays now
               dueDate = JS.Num d /\ d < 0) /\
  (DateHelpers.due_status
     (DateHelpers.getDueDateStatus Date new_Date differenceInDays now dueDate)
     = DateHelpers.due_soon <->
   exists d, DateHelpers.getDaysUntil Date new_Date differenceInDays now
               dueDate = JS.Num d /\ 0 <= d <= 3) /\
  (DateHelpers.due_status
     (DateHelpers.getDueDateStatus Date new_Date differenceInDays now dueDate)
     = DateHelpers.upcoming <->
   DateHelpers.getDaysUntil Date new_Date differenceInDays now dueDate
     = JS.NaN \/
   exists d, DateHelpers.getDaysUntil Date new_Date differenceInDays now
               dueDate = JS.Num d /\ 4 <= d).
Proof.
  pose proof (due_status_cases Date new_Date differenceInDays now dueDate)
    as H.
  destruct (DateHelpers.getDaysUntil Date new_Date differenceInDays now
              dueDate) as [|d]; rewrite H; clear H.
  - repeat split; try discriminate; auto.
    + intros (d & E & _). discriminate E.
    + intros (d & E & _). discriminate E.
  - destruct (Z.ltb_spec d 0); [|destruct (Z.leb_spec d 3)];
      repeat split; try discriminate;
      try (intros _; exists d; split; [reflexivity | lia]);
      try (intros (d' & [= <-] & ?); lia);
      try (intros [E|(d' & [= <-] & ?)]; [discriminate E | lia]);
      try reflexivity.
    intros _. right. exists d. split; [reflexivity | lia].
Qed.

(** X24.  A due date with fewer days left is never classified as less
    pressing than one with more days left. *)
Theorem getDueDateStatus_monotone
    (Date : Type) (new_Date : string -> Date)
    (differenceInDays : Date -> Date -> JS.jsnum) (now : Date)
    (sooner later : string) (d1 d2 : Z) :
  DateHelpers.getDaysUntil Date new_Date differenceInDays now sooner
    = JS.Num d1 ->
  DateHelpers.getDaysUntil Date new_Date differenceInDays now later
    = JS.Num d2 ->
  d1 <= d2 ->
  (urgency (DateHelpers.due_status
              (DateHelpers.getDueDateStatus Date new_Date differenceInDays
                 now later))
   <= urgency (DateHelpers.due_status
                 (DateHelpers.getDueDateStatus Date new_Date differenceInDays
                    now sooner)))%nat.
Proof.
  intros E1 E2 Hle.
  pose proof (due_status_cases Date new_Date differenceInDays now sooner)
    as H1.
  pose proof (due_status_cases Date new_Date differenceInDays now later)
    as H2.
  rewrite E1 in H1. rewrite E2 in H2. rewrite H1, H2.
  destruct (Z.ltb_spec d1 0); destruct (Z.ltb_spec d2 0);
    destruct (Z.leb_spec d1 3); destruct (Z.leb_spec d2 3);
    cbn; lia.
Qed.

Lemma getDueDateStatus_monotone_witness :
  (urgency (DateHelpers.due_status
              (DateHelpers.getDueDateStatus Z MoreExamples.days_in_text
                 Examples.wholeDays 0%Z "6"))
   <= urgency (DateHelpers.due_status
                 (DateHelpers.getDueDateStatus Z MoreExamples.days_in_text
                    Examples.wholeDays 0%Z "2")))%nat.
Proof.
  apply (getDueDateStatus_monotone Z MoreExamples.days_in_text
           Examples.wholeDays 0 "2" "6" 2 6).
  - reflexivity.
  - reflexivity.
  - lia.
Defined.

(* ================================================================== *)
(** ** Properties of the colour helpers *)
(* ================================================================== *)

(** X25.  Each colour table tells its keys apart: two priorities, two
    statuses or two categories with the same colours are the same. *)
Theorem colour_tables_are_injective :
  (forall p q : TaskPriority,
     ColorHelpers.getPriorityColor p = ColorHelpers.getPriorityColor q ->
     p = q) /\
  (forall s s' : TaskStatus,
     ColorHelpers.getStatusColor s = ColorHelpers.getStatusColor s' ->
     s = s') /\
  (forall c c' : TaskCategory,
     ColorHelpers.getCategoryColor c = ColorHelpers.getCategoryColor c' ->
     c = c').
Proof.
  repeat split.
  - intros [] []; cbn; intro E; try reflexivity; discriminate E.
  - intros [] []; cbn; intro E; try reflexivity; discriminate E.
  - intros [] []; cbn; intro E; try reflexivity; discriminate E.
Qed.

(* ================================================================== *)
(** ** Properties of [shuffleArray] *)
(* ================================================================== *)

Section ShuffleFacts.

Variable T : Type.

Lemma update_length (a : list T) (n : nat) (x : T) :
  List.length (Shuffle.update T a n x) = List.length a.
Proof.
  revert n; induction a as [|y a IH]; intros [|n]; cbn; auto.
Qed.

(** Writing [x] at the place of [y] and putting [y] in front holds the
    same elements as putting [x] in front. *)
Lemma update_takes_out (a : list T) (n : nat) (x y : T) :
  nth_error a n = Some y ->
  Permutation (y :: Shuffle.update T a n x) (x :: a).
Proof.
  revert n; induction a as [|b a IH]; intros [|n] H; cbn in *;
    try discriminate.
  - injection H as ->. apply perm_swap.
  - specialize (IH n H).
    eapply perm_trans; [apply perm_swap|].
    eapply perm_trans; [apply perm_skip, IH|]. apply perm_swap.
Qed.

Lemma update_same (a : list T) (n : nat) (x : T) :
  nth_error a n = Some x -> Shuffle.update T a n x = a.
Proof.
  revert n; induction a as [|b a IH]; intros [|n] H; cbn in *;
    try discriminate.
  - now injection H as ->.
  - now rewrite IH.
Qed.

Lemma nth_error_update (a : list T) (n : nat) (x y : T) :
  nth_error a n = Some y -> nth_error (Shuffle.update T a n x) n = Some x.
Proof.
  revert n; induction a as [|b a IH]; intros [|n] H; cbn in *;
    try discriminate; auto.
Qed.

Lemma swap_permutation (a : list T) (i j : nat) :
  Permutation (Shuffle.swap T a i j) a.
Proof.
  unfold Shuffle.swap.
  destruct (nth_error a i) as [x|] eqn:Ei; [|reflexivity].
  destruct (nth_error a j) as [y|] eqn:Ej; [|reflexivity].
  revert i j Ei Ej; induction a as [|b a IH]; intros [|i] [|j] Ei Ej;
    cbn in *; try discriminate.
  - injection Ei as ->. injection Ej as ->. reflexivity.
  - injection Ei as ->. now apply update_takes_out.
  - injection Ej as ->. now apply update_takes_out.
  - apply perm_skip. now apply IH.
Qed.

Lemma swap_length (a : list T) (i j : nat) :
  List.length (Shuffle.swap T a i j) = List.length a.
Proof.
  apply Permutation_length, swap_permutation.
Qed.

Variable floor_random : nat -> nat -> nat.

Lemma shuffle_loop_permutation (k i : nat) (a : list T) :
  Permutation (Shuffle.shuffle_loop T floor_random k i a) a.
Proof.
  revert k a; induction i as [|i IH]; intros k a; cbn; [reflexivity|].
  eapply perm_trans; [apply IH | apply swap_permutation].
Qed.

End ShuffleFacts.

(** X26.  When every draw [Math.floor(Math.random() * n)] is below its
    bound [n], [shuffleArray] returns a rearrangement of the array: the
    same elements, each as many times, hence the same length; an array of
    at most one element is returned as it is. *)
Theorem shuffleArray_rearranges (T : Type) (floor_random : nat -> nat -> nat)
    (k : nat) (array : list T) :
  (forall k' n, (0 < n)%nat -> (floor_random k' n < n)%nat) ->
  Permutation (Shuffle.shuffleArray T floor_random k array) array /\
  List.length (Shuffle.shuffleArray T floor_random k array)
    = List.length array /\
  ((List.length array <= 1)%nat ->
   Shuffle.shuffleArray T floor_random k array = array).
Proof.
  intros _.
  assert (P : Permutation (Shuffle.shuffleArray T floor_random k array)
                          array)
    by apply shuffle_loop_permutation.
  split; [exact P|]. split; [now apply Permutation_length|].
  intro H. unfold Shuffle.shuffleArray.
  destruct array as [|x [|y l]]; cbn in *; try reflexivity. lia.
Qed.

Lemma some_draws_below (k n : nat) :
  (0 < n)%nat -> (MoreExamples.some_draws k n < n)%nat.
Proof.
  intro H. unfold MoreExamples.some_draws. apply Nat.mod_upper_bound. lia.
Qed.

Lemma shuffleArray_rearranges_witness :
  Permutation
    (Shuffle.shuffleArray string MoreExamples.some_draws 0
       ["a"; "b"; "c"; "d"])
    ["a"; "b"; "c"; "d"] /\
  List.length (Shuffle.shuffleArray string MoreExamples.some_draws 0
                 ["a"; "b"; "c"; "d"])
    = List.length ["a"; "b"; "c"; "d"] /\
  ((List.length ["a"; "b"; "c"; "d"] <= 1)%nat ->
   Shuffle.shuffleArray string MoreExamples.some_draws 0
     ["a"; "b"; "c"; "d"] = ["a"; "b"; "c"; "d"]).
Proof.
  apply (shuffleArray_rearranges string MoreExamples.some_draws 0
           ["a"; "b"; "c"; "d"]).
  exact some_draws_below.
Defined.

Example shuffleArray_of_four :
  Shuffle.shuffleArray string MoreExamples.some_draws 0 ["a"; "b"; "c"; "d"]
  = ["c"; "d"; "b"; "a"].
Proof.
  reflexivity.
Qed.

(* ================================================================== *)
(** ** What is persisted *)
(* ================================================================== *)

(** X27.  Setting or clearing the filters and setting the sort option do
    not change the object [partialize] gives to the persistence layer. *)
Theorem view_settings_are_not_persisted (a : Action) (w : World) :
  on_view a = true ->
  partialize (state (exec (perform a) w)) = partialize (state w).
Proof.
  intro H. destruct a; try discriminate H; reflexivity.
Qed.

Lemma view_settings_are_not_persisted_witness :
  partialize (state (exec (perform (Session.SetSortBy by_title))
                          Examples.two_tasks))
  = partialize (state Examples.two_tasks).
Proof.
  apply (view_settings_are_not_persisted (Session.SetSortBy by_title)
           Examples.two_tasks).
  reflexivity.
Defined.

(* ================================================================== *)
(** ** The two [generateId] *)
(* ================================================================== *)

(** Taking [m] code units from the index [n] on is taking the code units
    from [n] to [n + m], both brought into the bounds of the string. *)
Lemma substring_clamped (n m : nat) (s : string) :
  String.substring n m s
  = String.substring (Nat.min n (String.length s))
      (Nat.min (n + m) (String.length s) - Nat.min n (String.length s)) s.
Proof.
  revert n m; induction s as [|c s IH]; intros [|n] m; cbn.
  - now destruct m.
  - reflexivity.
  - destruct m as [|m]; cbn; [reflexivity|].
    f_equal. rewrite (IH 0%nat m). cbn. now rewrite Nat.sub_0_r.
  - apply IH.
Qed.

Lemma substring_is_substr (r : string) (from len : nat) :
  JS.substring r (Z.of_nat from) (Z.of_nat (from + len))
  = JS.substr r from len.
Proof.
  unfold JS.substr, JS.substring, JS.clamp, JS.length.
  rewrite (substring_clamped from len r).
  rewrite !Z.max_l by lia.
  replace (Z.min (Z.min (Z.of_nat from) (Z.of_nat (String.length r)))
                 (Z.min (Z.of_nat (from + len)) (Z.of_nat (String.length r))))
    with (Z.of_nat (Nat.min from (String.length r))) by lia.
  replace (Z.max (Z.min (Z.of_nat from) (Z.of_nat (String.length r)))
                 (Z.min (Z.of_nat (from + len)) (Z.of_nat (String.length r))))
    with (Z.of_nat (Nat.min (from + len) (String.length r))) by lia.
  rewrite Nat2Z.id. f_equal. lia.
Qed.

(** X28.  The [generateId] of the helpers, which cuts the random suffix
    with [substring(2, 11)], and the one of the store, which cuts it with
    [substr(2, 9)], return the same id and leave the same world, whatever
    the clock and [Math.random] give. *)
Theorem generateId_variants_agree (w : World) :
  MoreHelpers.generateId w = Store.generateId w.
Proof.
  unfold MoreHelpers.generateId, Store.generateId, bind, ret,
    Date_now, Math_random_toString36.
  now rewrite (substring_is_substr _ 2 9).
Qed.

(* ================================================================== *)
(** ** [isOverdue] *)
(* ================================================================== *)

(** The test of the hook's [overdue] count is [isOverdue] on the due date
    of a task that is not done. *)
Lemma is_overdue_open_isOverdue (Date_value : string -> JS.jsnum)
    (t : Task) (w : World) :
  TaskViews.is_overdue_open Date_value t w
  = (fst (MoreHelpers.isOverdue Date_value (dueDate t) w)
     && negb (TaskViews.status_eqb (status t) done),
     snd (MoreHelpers.isOverdue Date_value (dueDate t) w)).
Proof.
  reflexivity.
Qed.

(** X29.  A due date that is overdue at one clock reading is overdue at
    every reading that is not earlier; and a string that is not a date is
    never overdue. *)
Theorem isOverdue_stays (Date_value : string -> JS.jsnum)
    (dueDate : string) (w1 w2 : World) :
  clock w1 (ticks w1) <= clock w2 (ticks w2) ->
  fst (MoreHelpers.isOverdue Date_value dueDate w1) = true ->
  fst (MoreHelpers.isOverdue Date_value dueDate w2) = true /\
  Date_value dueDate <> JS.NaN.
Proof.
  unfold MoreHelpers.isOverdue, bind, ret, Date_now; cbn [fst].
  intros Hle H. destruct (Date_value dueDate) as [|d]; [discriminate H|].
  cbn [JS.lt] in *. apply Z.ltb_lt in H.
  split; [apply Z.ltb_lt; lia | discriminate].
Qed.

Lemma isOverdue_stays_witness :
  fst (MoreHelpers.isOverdue MoreExamples.in_2022 "2022-04-15"
         Examples.two_tasks) = true /\
  MoreExamples.in_2022 "2022-04-15" <> JS.NaN.
Proof.
  apply (isOverdue_stays MoreExamples.in_2022 "2022-04-15"
           Examples.one_task Examples.two_tasks).
  - vm_compute. discriminate.
  - reflexivity.
Defined.
